(** * bookmyshow-lld: seat inventory and booking lifecycle

    A shallow embedding of the seat/screen/booking entities
    (internal/models) and of the booking service
    (services.BookingServiceImpl), followed by the properties of the
    design document that concern them.

    Conventions of the embedding
    - Go objects reached through pointers ([*Seat], [*Booking]) live in a
      heap indexed by [ptr]; a method with a pointer receiver updates the
      heap cell.  Pointers held in maps are never nil: [Screen.AddSeat]
      and the repositories dereference the pointer before storing it.
    - A Go [error] is an [option error]; [None] is [nil].
    - The mutexes are not modelled: every method body is one critical
      section, and the embedding describes a sequential execution.
    - [time.Now()] and [uuid.New()] read from oracles carried in the
      state; time is an integer number of nanoseconds.
    - [float64] is the primitive binary64 type. *)

From Stdlib Require Import ZArith Ascii String List Lia PrimFloat.
From stdpp Require Import base option functions list gmap strings.

Abbreviation ptr := positive (only parsing).
Abbreviation Time := Z (only parsing).

(** ** models/errors.go *)

Inductive error : Set :=
| ErrSeatNotFound
| ErrSeatNotAvailable
| ErrSeatNotBlocked
| ErrSeatAlreadyBooked
| ErrShowNotFound
| ErrShowNotBookable
| ErrScreenNotFound
| ErrInvalidBookingData
| ErrBookingNotFound
| ErrBookingNotPending
| ErrBookingExpired
| ErrBookingAlreadyConfirmed
| ErrBookingAlreadyCancelled
| ErrOther (msg : string).

#[global] Instance error_eq_dec : EqDecision error.
Proof. solve_decision. Defined.

(** The other sentinel errors of models/errors.go, each told apart by its
    message. *)
Definition ErrInvalidShowData : error := ErrOther "invalid show data provided".

Definition ErrInvalidShowTime : error := ErrOther "invalid show time".

Definition ErrInvalidMovieData : error := ErrOther "invalid movie data provided".

Definition ErrMovieNotFound : error := ErrOther "movie not found".

Definition ErrTheatreNotFound : error := ErrOther "theatre not found".

Definition ErrInvalidPaymentData : error :=
  ErrOther "invalid payment data provided".

Definition ErrPaymentNotFound : error := ErrOther "payment not found".

Definition ErrPaymentNotSuccessful : error :=
  ErrOther "payment was not successful".

Definition ErrInvalidRefundAmount : error := ErrOther "invalid refund amount".

(** Go's [int] on a 64-bit platform: two's complement wrap-around. *)
Definition wrap_int (z : Z) : Z :=
  ((z + 2 ^ 63) mod 2 ^ 64 - 2 ^ 63)%Z.

(** Go's [int32], the type behind [rune]. *)
Definition wrap_int32 (z : Z) : Z :=
  ((z + 2 ^ 31) mod 2 ^ 32 - 2 ^ 31)%Z.

Definition byte (z : Z) : ascii := ascii_of_N (Z.to_N z).

(** [string(r)] for a rune [r]: the UTF-8 encoding of the code point, and
    U+FFFD for what is not a code point (negative, a surrogate, above
    U+10FFFF). *)
Definition string_of_rune (r : Z) : string :=
  if bool_decide (r < 0 \/ (55296 <= r <= 57343) \/ 1114111 < r)%Z
  then String (byte 239) (String (byte 191) (String (byte 189) EmptyString))
  else if bool_decide (r < 128)%Z
  then String (byte r) EmptyString
  else if bool_decide (r < 2048)%Z
  then String (byte (Z.lor 192 (Z.shiftr r 6)))
         (String (byte (Z.lor 128 (Z.land r 63))) EmptyString)
  else if bool_decide (r < 65536)%Z
  then String (byte (Z.lor 224 (Z.shiftr r 12)))
         (String (byte (Z.lor 128 (Z.land (Z.shiftr r 6) 63)))
            (String (byte (Z.lor 128 (Z.land r 63))) EmptyString))
  else String (byte (Z.lor 240 (Z.shiftr r 18)))
         (String (byte (Z.lor 128 (Z.land (Z.shiftr r 12) 63)))
            (String (byte (Z.lor 128 (Z.land (Z.shiftr r 6) 63)))
               (String (byte (Z.lor 128 (Z.land r 63))) EmptyString))).

(** ** models/seat.go *)

Module Seat.

Inductive SeatType : Set :=
| SeatTypeRegular
| SeatTypePremium
| SeatTypeVIP
| SeatTypeRecliner.

Inductive SeatStatus : Set :=
| SeatStatusAvailable
| SeatStatusBooked
| SeatStatusBlocked.

#[global] Instance SeatStatus_eq_dec : EqDecision SeatStatus.
Proof. solve_decision. Defined.

Record t : Set := mk {
  ID : string;
  RowName : string;
  Number : Z;
  Type_ : SeatType;
  Status : SeatStatus;
  Price : float
}.

Definition set_Status (st : SeatStatus) (s : t) : t :=
  {| ID := ID s; RowName := RowName s; Number := Number s;
     Type_ := Type_ s; Status := st; Price := Price s |}.

(** [NewSeat]; [id] is the string drawn from [uuid.New()]. *)
Definition NewSeat (id rowName : string) (number : Z) (seatType : SeatType)
    (price : float) : t :=
  {| ID := id; RowName := rowName; Number := number; Type_ := seatType;
     Status := SeatStatusAvailable; Price := price |}.

Definition IsAvailable (s : t) : bool :=
  bool_decide (Status s = SeatStatusAvailable).

Definition Block (s : t) : t * option error :=
  if bool_decide (Status s ≠ SeatStatusAvailable)
  then (s, Some ErrSeatNotAvailable)
  else (set_Status SeatStatusBlocked s, None).

Definition Book (s : t) : t * option error :=
  if bool_decide (Status s ≠ SeatStatusBlocked)
  then (s, Some ErrSeatNotBlocked)
  else (set_Status SeatStatusBooked s, None).

Definition Unblock (s : t) : t * option error :=
  if bool_decide (Status s ≠ SeatStatusBlocked)
  then (s, Some ErrSeatNotBlocked)
  else (set_Status SeatStatusAvailable s, None).

Definition GetStatus (s : t) : SeatStatus := Status s.

Definition GetPrice (s : t) : float := Price s.

(** The three mutators of [Seat.Status]; nothing else in the repository
    assigns the field. *)
Inductive op : Set := OpBlock | OpBook | OpUnblock.

Definition run (o : op) : t -> t * option error :=
  match o with
  | OpBlock => Block
  | OpBook => Book
  | OpUnblock => Unblock
  end.

(** The edges of the seat life cycle, each tagged with its operation. *)
Inductive edge : op -> SeatStatus -> SeatStatus -> Prop :=
| edge_block : edge OpBlock SeatStatusAvailable SeatStatusBlocked
| edge_book : edge OpBook SeatStatusBlocked SeatStatusBooked
| edge_unblock : edge OpUnblock SeatStatusBlocked SeatStatusAvailable.

#[global] Instance SeatType_eq_dec : EqDecision SeatType.
Proof. solve_decision. Defined.

(** [s.RowName + string(rune('0'+s.Number))]: the sum is an [int], the
    conversion to [rune] keeps its low 32 bits. *)
Definition GetSeatNumber (s : t) : string :=
  (RowName s ++ string_of_rune (wrap_int32 (wrap_int (48 + Number s))))%string.

End Seat.

(** The heap of [Seat] objects. *)
Abbreviation SeatHeap := (ptr -> Seat.t) (only parsing).

(** A method call through a [*Seat]: the cell is overwritten with the
    receiver after the call and the error is handed back. *)
Definition call_seat (f : Seat.t -> Seat.t * option error) (p : ptr)
    (h : SeatHeap) : SeatHeap * option error :=
  let '(s', e) := f (h p) in (<[p := s']> h, e).

(** ** models/screen.go *)

Module Screen.

Record t : Type := mk {
  ID : string;
  Name : string;
  TheatreID : string;
  Capacity : Z;
  Seats : gmap string ptr
}.

Definition NewScreen (id name theatreID : string) : t :=
  {| ID := id; Name := name; TheatreID := theatreID; Capacity := 0;
     Seats := ∅ |}.

(** [s.Seats[seat.ID] = seat; s.Capacity++] *)
Definition AddSeat (h : SeatHeap) (seat : ptr) (s : t) : t :=
  {| ID := ID s; Name := Name s; TheatreID := TheatreID s;
     Capacity := wrap_int (Capacity s + 1);
     Seats := <[Seat.ID (h seat) := seat]> (Seats s) |}.

Definition GetSeat (s : t) (seatID : string) : ptr + error :=
  match Seats s !! seatID with
  | Some p => inl p
  | None => inr ErrSeatNotFound
  end.

Definition GetCapacity (s : t) : Z := Capacity s.

(** First loop of [BlockSeats]: every requested seat exists and is
    available.  The loop reads only. *)
Fixpoint check_seats (s : t) (h : SeatHeap) (seatIDs : list string)
    : option error :=
  match seatIDs with
  | [] => None
  | seatID :: rest =>
      match Seats s !! seatID with
      | None => Some ErrSeatNotFound
      | Some p =>
          if negb (Seat.IsAvailable (h p)) then Some ErrSeatNotAvailable
          else check_seats s h rest
      end
  end.

(** The rollback loop: walks [seatIDs] from index 0, stops at the first
    entry equal to [seatID], unblocks the others (errors dropped).
    [None] is the nil-pointer panic of [s.Seats[id].Unblock()] on a
    missing key. *)
Fixpoint rollback (s : t) (seatID : string) (seatIDs : list string)
    (h : SeatHeap) : option SeatHeap :=
  match seatIDs with
  | [] => Some h
  | x :: rest =>
      if bool_decide (x = seatID) then Some h
      else
        match Seats s !! x with
        | None => None
        | Some p => rollback s seatID rest (call_seat Seat.Unblock p h).1
        end
  end.

(** Second loop of [BlockSeats] over the remaining [todo]; [seatIDs] is
    the whole request, needed by the rollback. *)
Fixpoint block_loop (s : t) (seatIDs todo : list string) (h : SeatHeap)
    : option (SeatHeap * option error) :=
  match todo with
  | [] => Some (h, None)
  | seatID :: rest =>
      match Seats s !! seatID with
      | None => None
      | Some p =>
          match call_seat Seat.Block p h with
          | (h', Some err) =>
              h'' ← rollback s seatID seatIDs h'; Some (h'', Some err)
          | (h', None) => block_loop s seatIDs rest h'
          end
      end
  end.

(** [BlockSeats]; the outer [None] is a panic. *)
Definition BlockSeats (s : t) (seatIDs : list string) (h : SeatHeap)
    : option (SeatHeap * option error) :=
  match check_seats s h seatIDs with
  | Some err => Some (h, Some err)
  | None => block_loop s seatIDs seatIDs h
  end.

(** Status of the seat filed under [seatID], if any. *)
Definition seat_status (s : t) (h : SeatHeap) (seatID : string)
    : option Seat.SeatStatus :=
  p ← Seats s !! seatID; Some (Seat.Status (h p)).

(** What the first loop of [BlockSeats] accepts: the seat is on file and
    available. *)
Definition requestable (s : t) (h : SeatHeap) (seatID : string) : Prop :=
  exists p, Seats s !! seatID = Some p
            /\ Seat.Status (h p) = Seat.SeatStatusAvailable.

(** [GetAvailableSeats] ranges over the map, whose order Go leaves open;
    the list is given in the order of [map_to_list]. *)
Definition GetAvailableSeats (s : t) (h : SeatHeap) : list ptr :=
  List.filter (fun p => Seat.IsAvailable (h p))
    (List.map snd (map_to_list (Seats s))).

Definition GetSeatsByType (s : t) (h : SeatHeap) (seatType : Seat.SeatType)
    : list ptr :=
  List.filter (fun p => bool_decide (Seat.Type_ (h p) = seatType))
    (List.map snd (map_to_list (Seats s))).

End Screen.

(** The state of the second loop after it has blocked the seats [dps]:
    those cells were available in [h] and differ from it in the status
    only, all other cells are those of [h]. *)
Definition held (h hc : SeatHeap) (dps : list ptr) : Prop :=
  NoDup dps
  /\ (forall p, p ∈ dps ->
        Seat.Status (h p) = Seat.SeatStatusAvailable
        /\ hc p = Seat.set_Status Seat.SeatStatusBlocked (h p))
  /\ (forall p, p ∉ dps -> hc p = h p).

(** ** Oracles: the wall clock and the uuid generator *)

Record Oracle : Type := {
  readings : nat -> Time;   (* successive results of [time.Now()] *)
  tick : nat;
  uuids : nat -> string;    (* successive results of [uuid.New().String()] *)
  drawn : nat
}.

Definition time_Now (o : Oracle) : Time * Oracle :=
  (readings o (tick o),
   {| readings := readings o; tick := S (tick o);
      uuids := uuids o; drawn := drawn o |}).

Definition uuid_New (o : Oracle) : string * Oracle :=
  (uuids o (drawn o),
   {| readings := readings o; tick := tick o;
      uuids := uuids o; drawn := S (drawn o) |}).

(** [time.Minute], in nanoseconds. *)
Definition Minute : Z := 60 * 1000000000.

(** [t.After(u)] *)
Definition After (t u : Time) : bool := bool_decide (u < t)%Z.

(** [t.Before(u)] *)
Definition Before (t u : Time) : bool := bool_decide (t < u)%Z.

(** [t.Sub(u)]: a [Duration] is an int64 number of nanoseconds, and the
    difference saturates at its two ends. *)
Definition Sub (t u : Time) : Z :=
  Z.max (- 2 ^ 63) (Z.min (2 ^ 63 - 1) (t - u)).

(** ** models/booking.go *)

Module Booking.

Inductive BookingStatus : Set :=
| BookingStatusPending
| BookingStatusConfirmed
| BookingStatusCancelled
| BookingStatusExpired.

#[global] Instance BookingStatus_eq_dec : EqDecision BookingStatus.
Proof. solve_decision. Defined.

Record t : Set := mk {
  ID : string;
  UserID : string;
  ShowID : string;
  SeatIDs : list string;
  TotalAmount : float;
  Status : BookingStatus;
  BookingTime : Time;
  ExpiryTime : Time;
  PaymentID : string;
  CreatedAt : Time;
  UpdatedAt : Time
}.

Definition BookingTimeout : Z := 15 * Minute.

(** The guard of [NewBooking]. *)
Definition invalid_data (userID showID : string) (seatIDs : list string)
    (totalAmount : float) : bool :=
  bool_decide (userID = EmptyString) || bool_decide (showID = EmptyString)
  || bool_decide (length seatIDs = 0%nat) || PrimFloat.leb totalAmount 0.

Definition NewBooking (userID showID : string) (seatIDs : list string)
    (totalAmount : float) (o : Oracle) : (t + error) * Oracle :=
  if invalid_data userID showID seatIDs totalAmount
  then (inr ErrInvalidBookingData, o)
  else
    let '(now, o1) := time_Now o in
    let '(id, o2) := uuid_New o1 in
    (inl {| ID := id; UserID := userID; ShowID := showID;
            SeatIDs := seatIDs; TotalAmount := totalAmount;
            Status := BookingStatusPending; BookingTime := now;
            ExpiryTime := (now + BookingTimeout)%Z; PaymentID := EmptyString;
            CreatedAt := now; UpdatedAt := now |}, o2).

Definition set_Status (st : BookingStatus) (b : t) : t :=
  {| ID := ID b; UserID := UserID b; ShowID := ShowID b;
     SeatIDs := SeatIDs b; TotalAmount := TotalAmount b; Status := st;
     BookingTime := BookingTime b; ExpiryTime := ExpiryTime b;
     PaymentID := PaymentID b; CreatedAt := CreatedAt b;
     UpdatedAt := UpdatedAt b |}.

Definition set_PaymentID (pid : string) (b : t) : t :=
  {| ID := ID b; UserID := UserID b; ShowID := ShowID b;
     SeatIDs := SeatIDs b; TotalAmount := TotalAmount b; Status := Status b;
     BookingTime := BookingTime b; ExpiryTime := ExpiryTime b;
     PaymentID := pid; CreatedAt := CreatedAt b;
     UpdatedAt := UpdatedAt b |}.

Definition set_UpdatedAt (u : Time) (b : t) : t :=
  {| ID := ID b; UserID := UserID b; ShowID := ShowID b;
     SeatIDs := SeatIDs b; TotalAmount := TotalAmount b; Status := Status b;
     BookingTime := BookingTime b; ExpiryTime := ExpiryTime b;
     PaymentID := PaymentID b; CreatedAt := CreatedAt b;
     UpdatedAt := u |}.

Definition IsExpired (b : t) (o : Oracle) : bool * Oracle :=
  let '(now, o1) := time_Now o in
  (After now (ExpiryTime b)
   && bool_decide (Status b = BookingStatusPending), o1).

Definition Confirm (paymentID : string) (b : t) (o : Oracle)
    : t * option error * Oracle :=
  if bool_decide (Status b ≠ BookingStatusPending)
  then (b, Some ErrBookingNotPending, o)
  else
    let '(now, o1) := time_Now o in
    if After now (ExpiryTime b)
    then (set_Status BookingStatusExpired b, Some ErrBookingExpired, o1)
    else
      let '(upd, o2) := time_Now o1 in
      (set_UpdatedAt upd
         (set_PaymentID paymentID (set_Status BookingStatusConfirmed b)),
       None, o2).

Definition Cancel (b : t) (o : Oracle) : t * option error * Oracle :=
  if bool_decide (Status b = BookingStatusConfirmed)
  then (b, Some ErrBookingAlreadyConfirmed, o)
  else if bool_decide (Status b = BookingStatusCancelled)
  then (b, Some ErrBookingAlreadyCancelled, o)
  else
    let '(upd, o1) := time_Now o in
    (set_UpdatedAt upd (set_Status BookingStatusCancelled b), None, o1).

Definition Expire (b : t) (o : Oracle) : t * option error * Oracle :=
  if bool_decide (Status b ≠ BookingStatusPending)
  then (b, Some ErrBookingNotPending, o)
  else
    let '(upd, o1) := time_Now o in
    (set_UpdatedAt upd (set_Status BookingStatusExpired b), None, o1).

Definition GetStatus (b : t) : BookingStatus := Status b.

Definition GetSeatCount (b : t) : nat := length (SeatIDs b).

Definition CanBeCancelled (b : t) : bool :=
  bool_decide (Status b = BookingStatusPending)
  || bool_decide (Status b = BookingStatusConfirmed).

(** The terminal states of the design document. *)
Definition terminal (st : BookingStatus) : bool :=
  match st with
  | BookingStatusPending => false
  | _ => true
  end.

(** The three mutators of a booking. *)
Inductive op : Set := OpConfirm (paymentID : string) | OpCancel | OpExpire.

Definition run (x : op) : t -> Oracle -> t * option error * Oracle :=
  match x with
  | OpConfirm paymentID => Confirm paymentID
  | OpCancel => Cancel
  | OpExpire => Expire
  end.

(** A sequence of mutator calls; the errors are dropped. *)
Fixpoint run_all (xs : list op) (b : t) (o : Oracle) : t * Oracle :=
  match xs with
  | [] => (b, o)
  | x :: rest => let '(b', _, o') := run x b o in run_all rest b' o'
  end.

(** [time.Until(b.ExpiryTime)] is [b.ExpiryTime.Sub(time.Now())]; the
    clock is read only for a pending booking. *)
Definition TimeUntilExpiry (b : t) (o : Oracle) : Z * Oracle :=
  if bool_decide (Status b ≠ BookingStatusPending) then (0%Z, o)
  else
    let '(now, o1) := time_Now o in
    let remaining := Sub (ExpiryTime b) now in
    if bool_decide (remaining < 0)%Z then (0%Z, o1) else (remaining, o1).

End Booking.

(** ** models/show.go *)

Module Show.

Record t : Set := mk {
  ID : string;
  MovieID : string;
  TheatreID : string;
  ScreenID : string;
  StartTime : Time;
  EndTime : Time;
  BasePrice : float;
  CreatedAt : Time;
  UpdatedAt : Time
}.

(** Booking is allowed until 30 minutes after the start. *)
Definition CanBeBooked (s : t) (o : Oracle) : bool * Oracle :=
  let bookingCutoff := (StartTime s + 30 * Minute)%Z in
  let '(now, o1) := time_Now o in
  (Before now bookingCutoff, o1).

(** [NewShow]; [movieDuration] is a [Duration] in nanoseconds.  The clock
    is read for the check and twice more for the two time stamps. *)
Definition NewShow (movieID theatreID screenID : string) (startTime : Time)
    (basePrice : float) (movieDuration : Z) (o : Oracle)
    : (t + error) * Oracle :=
  if bool_decide (movieID = EmptyString)
     || bool_decide (theatreID = EmptyString)
     || bool_decide (screenID = EmptyString) || PrimFloat.leb basePrice 0
  then (inr ErrInvalidShowData, o)
  else
    let '(now, o1) := time_Now o in
    if Before startTime now then (inr ErrInvalidShowTime, o1)
    else
      let endTime := (startTime + movieDuration)%Z in
      let '(id, o2) := uuid_New o1 in
      let '(created, o3) := time_Now o2 in
      let '(updated, o4) := time_Now o3 in
      (inl {| ID := id; MovieID := movieID; TheatreID := theatreID;
              ScreenID := screenID; StartTime := startTime;
              EndTime := endTime; BasePrice := basePrice;
              CreatedAt := created; UpdatedAt := updated |}, o4).

Definition IsActive (s : t) (o : Oracle) : bool * Oracle :=
  let '(now, o1) := time_Now o in
  (After now (StartTime s) && Before now (EndTime s), o1).

Definition IsUpcoming (s : t) (o : Oracle) : bool * Oracle :=
  let '(now, o1) := time_Now o in (Before now (StartTime s), o1).

Definition IsCompleted (s : t) (o : Oracle) : bool * Oracle :=
  let '(now, o1) := time_Now o in (After now (EndTime s), o1).

(** [UpdateShow]: the clock is read before the price is looked at. *)
Definition UpdateShow (startTime : Time) (basePrice : float)
    (movieDuration : Z) (s : t) (o : Oracle) : t * option error * Oracle :=
  let '(now, o1) := time_Now o in
  if Before startTime now || PrimFloat.leb basePrice 0
  then (s, Some ErrInvalidShowData, o1)
  else
    let '(updated, o2) := time_Now o1 in
    ({| ID := ID s; MovieID := MovieID s; TheatreID := TheatreID s;
        ScreenID := ScreenID s; StartTime := startTime;
        EndTime := (startTime + movieDuration)%Z; BasePrice := basePrice;
        CreatedAt := CreatedAt s; UpdatedAt := updated |}, None, o2).

Definition GetDuration (s : t) : Z := Sub (EndTime s) (StartTime s).

(** [TimeUntilStart] reads the clock in [IsUpcoming] and once more for the
    difference. *)
Definition TimeUntilStart (s : t) (o : Oracle) : Z * Oracle :=
  let '(upcoming, o1) := IsUpcoming s o in
  if upcoming
  then let '(now, o2) := time_Now o1 in (Sub (StartTime s) now, o2)
  else (0%Z, o1).

End Show.

(** ** models/booking.go: payments *)

Module Payment.

Inductive PaymentMethod : Set :=
| PaymentMethodCreditCard
| PaymentMethodDebitCard
| PaymentMethodUPI
| PaymentMethodNetBanking
| PaymentMethodWallet.

Inductive PaymentStatus : Set :=
| PaymentStatusPending
| PaymentStatusSuccess
| PaymentStatusFailed
| PaymentStatusRefunded
| PaymentStatusCancelled.

#[global] Instance PaymentStatus_eq_dec : EqDecision PaymentStatus.
Proof. solve_decision. Defined.

(** [ProcessedAt] and [RefundedAt] are [*time.Time]; [None] is nil. *)
Record t : Set := mk {
  ID : string;
  BookingID : string;
  UserID : string;
  Amount : float;
  Method : PaymentMethod;
  Status : PaymentStatus;
  TransactionID : string;
  GatewayResponse : string;
  FailureReason : string;
  RefundAmount : float;
  RefundReason : string;
  ProcessedAt : option Time;
  RefundedAt : option Time;
  CreatedAt : Time;
  UpdatedAt : Time
}.

Definition NewPayment (bookingID userID : string) (amount : float)
    (method : PaymentMethod) (o : Oracle) : (t + error) * Oracle :=
  if bool_decide (bookingID = EmptyString)
     || bool_decide (userID = EmptyString) || PrimFloat.leb amount 0
  then (inr ErrInvalidPaymentData, o)
  else
    let '(id, o1) := uuid_New o in
    let '(created, o2) := time_Now o1 in
    let '(updated, o3) := time_Now o2 in
    (inl {| ID := id; BookingID := bookingID; UserID := userID;
            Amount := amount; Method := method;
            Status := PaymentStatusPending; TransactionID := EmptyString;
            GatewayResponse := EmptyString; FailureReason := EmptyString;
            RefundAmount := 0; RefundReason := EmptyString;
            ProcessedAt := None; RefundedAt := None;
            CreatedAt := created; UpdatedAt := updated |}, o3).

Definition MarkSuccess (transactionID gatewayResponse : string) (p : t)
    (o : Oracle) : t * Oracle :=
  let '(now, o1) := time_Now o in
  ({| ID := ID p; BookingID := BookingID p; UserID := UserID p;
      Amount := Amount p; Method := Method p;
      Status := PaymentStatusSuccess; TransactionID := transactionID;
      GatewayResponse := gatewayResponse; FailureReason := FailureReason p;
      RefundAmount := RefundAmount p; RefundReason := RefundReason p;
      ProcessedAt := Some now; RefundedAt := RefundedAt p;
      CreatedAt := CreatedAt p; UpdatedAt := now |}, o1).

Definition MarkFailed (failureReason : string) (p : t) (o : Oracle)
    : t * Oracle :=
  let '(now, o1) := time_Now o in
  ({| ID := ID p; BookingID := BookingID p; UserID := UserID p;
      Amount := Amount p; Method := Method p;
      Status := PaymentStatusFailed; TransactionID := TransactionID p;
      GatewayResponse := GatewayResponse p; FailureReason := failureReason;
      RefundAmount := RefundAmount p; RefundReason := RefundReason p;
      ProcessedAt := Some now; RefundedAt := RefundedAt p;
      CreatedAt := CreatedAt p; UpdatedAt := now |}, o1).

Definition MarkCancelled (p : t) (o : Oracle) : t * Oracle :=
  let '(now, o1) := time_Now o in
  ({| ID := ID p; BookingID := BookingID p; UserID := UserID p;
      Amount := Amount p; Method := Method p;
      Status := PaymentStatusCancelled; TransactionID := TransactionID p;
      GatewayResponse := GatewayResponse p; FailureReason := FailureReason p;
      RefundAmount := RefundAmount p; RefundReason := RefundReason p;
      ProcessedAt := ProcessedAt p; RefundedAt := RefundedAt p;
      CreatedAt := CreatedAt p; UpdatedAt := now |}, o1).

Definition ProcessRefund (refundAmount : float) (refundReason : string)
    (p : t) (o : Oracle) : t * option error * Oracle :=
  if bool_decide (Status p ≠ PaymentStatusSuccess)
  then (p, Some ErrPaymentNotSuccessful, o)
  else if PrimFloat.leb refundAmount 0 || PrimFloat.ltb (Amount p) refundAmount
  then (p, Some ErrInvalidRefundAmount, o)
  else
    let '(now, o1) := time_Now o in
    ({| ID := ID p; BookingID := BookingID p; UserID := UserID p;
        Amount := Amount p; Method := Method p;
        Status := PaymentStatusRefunded; TransactionID := TransactionID p;
        GatewayResponse := GatewayResponse p;
        FailureReason := FailureReason p;
        RefundAmount := refundAmount; RefundReason := refundReason;
        ProcessedAt := ProcessedAt p; RefundedAt := Some now;
        CreatedAt := CreatedAt p; UpdatedAt := now |}, None, o1).

Definition IsSuccessful (p : t) : bool :=
  bool_decide (Status p = PaymentStatusSuccess).

Definition IsPending (p : t) : bool :=
  bool_decide (Status p = PaymentStatusPending).

Definition IsFailed (p : t) : bool :=
  bool_decide (Status p = PaymentStatusFailed).

Definition IsRefunded (p : t) : bool :=
  bool_decide (Status p = PaymentStatusRefunded).

Definition CanBeRefunded (p : t) : bool :=
  bool_decide (Status p = PaymentStatusSuccess).

(** The mutators of a payment. *)
Inductive op : Type :=
| OpMarkSuccess (transactionID gatewayResponse : string)
| OpMarkFailed (failureReason : string)
| OpMarkCancelled
| OpProcessRefund (refundAmount : float) (refundReason : string).

Definition run (x : op) (p : t) (o : Oracle) : t * option error * Oracle :=
  match x with
  | OpMarkSuccess transactionID gatewayResponse =>
      let '(p', o') := MarkSuccess transactionID gatewayResponse p o in
      (p', None, o')
  | OpMarkFailed failureReason =>
      let '(p', o') := MarkFailed failureReason p o in (p', None, o')
  | OpMarkCancelled => let '(p', o') := MarkCancelled p o in (p', None, o')
  | OpProcessRefund refundAmount refundReason =>
      ProcessRefund refundAmount refundReason p o
  end.

End Payment.

(** ** models/movie.go *)

Module Movie.

Inductive Genre : Set :=
| GenreAction
| GenreComedy
| GenreDrama
| GenreHorror
| GenreRomance
| GenreSciFi
| GenreThriller.

Inductive Language : Set :=
| LanguageEnglish
| LanguageHindi
| LanguageTamil
| LanguageTelugu.

(** [Rating] is a [float32]; it is held in a binary64, which represents
    every binary32 value and orders them alike. *)
Record t : Set := mk {
  ID : string;
  Title : string;
  Description : string;
  Duration : Z;
  Genre_ : Genre;
  Language_ : Language;
  Rating : float;
  ReleaseDate : Time;
  CreatedAt : Time;
  UpdatedAt : Time
}.

Definition NewMovie (title description : string) (duration : Z)
    (genre : Genre) (language : Language) (rating : float)
    (releaseDate : Time) (o : Oracle) : (t + error) * Oracle :=
  if bool_decide (title = EmptyString) || bool_decide (duration <= 0)%Z
     || PrimFloat.ltb rating 0 || PrimFloat.ltb 10 rating
  then (inr ErrInvalidMovieData, o)
  else
    let '(id, o1) := uuid_New o in
    let '(created, o2) := time_Now o1 in
    let '(updated, o3) := time_Now o2 in
    (inl {| ID := id; Title := title; Description := description;
            Duration := duration; Genre_ := genre; Language_ := language;
            Rating := rating; ReleaseDate := releaseDate;
            CreatedAt := created; UpdatedAt := updated |}, o3).

Definition IsReleased (m : t) (o : Oracle) : bool * Oracle :=
  let '(now, o1) := time_Now o in (After now (ReleaseDate m), o1).

End Movie.

(** ** services/basic_services.go: the repository interfaces

    Only the methods the booking service calls are listed.  An
    implementation owns a state of type [R]; it may read the object it is
    handed but mutates nothing outside [R].  Bookings are stored as
    pointers, shows and screens as the values the service reads (the
    service never assigns a field of a [Show] or of a [Screen]). *)

Class ShowRepository (R : Type) : Type := {
  show_Create : Show.t -> R -> R * option error;
  show_GetByID : string -> R -> Show.t + error
}.

Class ScreenRepository (R : Type) : Type := {
  screen_Create : Screen.t -> R -> R * option error;
  screen_GetByID : string -> R -> Screen.t + error;
  screen_Update : Screen.t -> R -> R * option error
}.

Class BookingRepository (R : Type) : Type := {
  booking_Create : ptr -> Booking.t -> R -> R * option error;
  booking_GetByID : string -> R -> ptr + error;
  booking_Update : ptr -> Booking.t -> R -> R * option error
}.

(** The schedule check of [ShowRepository], and the two lookups
    [ShowServiceImpl.CreateShow] makes besides.  The theatre a lookup
    returns is dropped by the caller, so its type [T] is left open. *)
Class ShowSchedule (R : Type) : Type := {
  show_CheckConflict : string -> Time -> Time -> R -> bool + error
}.

Class MovieRepository (R : Type) : Type := {
  movie_Create : Movie.t -> R -> R * option error;
  movie_GetByID : string -> R -> Movie.t + error
}.

Class TheatreRepository (R T : Type) : Type := {
  theatre_GetByID : string -> R -> T + error
}.

(** ** repositories: the in-memory implementations *)

Module repositories.

Record MemoryShowRepository : Type := { shows : gmap string Show.t }.

Record MemoryScreenRepository : Type := { screens : gmap string Screen.t }.

Record MemoryBookingRepository : Type := { bookings : gmap string ptr }.

#[global] Instance memory_show : ShowRepository MemoryShowRepository := {
  show_Create show r := ({| shows := <[Show.ID show := show]> (shows r) |}, None);
  show_GetByID id r :=
    match shows r !! id with
    | Some show => inl show
    | None => inr ErrShowNotFound
    end
}.

#[global] Instance memory_screen : ScreenRepository MemoryScreenRepository := {
  screen_Create screen r :=
    ({| screens := <[Screen.ID screen := screen]> (screens r) |}, None);
  screen_GetByID id r :=
    match screens r !! id with
    | Some screen => inl screen
    | None => inr ErrScreenNotFound
    end;
  screen_Update screen r :=
    match screens r !! Screen.ID screen with
    | None => (r, Some ErrScreenNotFound)
    | Some _ =>
        ({| screens := <[Screen.ID screen := screen]> (screens r) |}, None)
    end
}.

#[global] Instance memory_booking : BookingRepository MemoryBookingRepository := {
  booking_Create p booking r :=
    ({| bookings := <[Booking.ID booking := p]> (bookings r) |}, None);
  booking_GetByID id r :=
    match bookings r !! id with
    | Some p => inl p
    | None => inr ErrBookingNotFound
    end;
  booking_Update p booking r :=
    match bookings r !! Booking.ID booking with
    | None => (r, Some ErrBookingNotFound)
    | Some _ =>
        ({| bookings := <[Booking.ID booking := p]> (bookings r) |}, None)
    end
}.

(** [CheckConflict]: the loop returns true at the first show of the
    screen whose interval meets the requested one, so the answer does not
    depend on the order of the map. *)
Definition CheckConflict (screenID : string) (startTime endTime : Time)
    (r : MemoryShowRepository) : bool :=
  existsb
    (fun show =>
       bool_decide (Show.ScreenID show = screenID)
       && (Before startTime (Show.EndTime show)
           && After endTime (Show.StartTime show)))
    (List.map snd (map_to_list (shows r))).

(** [GetByMovieID], in the order of [map_to_list]. *)
Definition GetByMovieID (movieID : string) (r : MemoryShowRepository)
    : list Show.t :=
  List.filter (fun show => bool_decide (Show.MovieID show = movieID))
    (List.map snd (map_to_list (shows r))).

#[global] Instance memory_schedule : ShowSchedule MemoryShowRepository := {
  show_CheckConflict screenID startTime endTime r :=
    inl (CheckConflict screenID startTime endTime r)
}.

Record MemoryMovieRepository : Type := { movies : gmap string Movie.t }.

#[global] Instance memory_movie : MovieRepository MemoryMovieRepository := {
  movie_Create movie r :=
    ({| movies := <[Movie.ID movie := movie]> (movies r) |}, None);
  movie_GetByID id r :=
    match movies r !! id with
    | Some movie => inl movie
    | None => inr ErrMovieNotFound
    end
}.

(** No two shows filed under different keys occupy one screen at
    overlapping times. *)
Definition conflict_free (r : MemoryShowRepository) : Prop :=
  forall id1 id2 show1 show2,
    shows r !! id1 = Some show1 -> shows r !! id2 = Some show2 ->
    id1 <> id2 -> Show.ScreenID show1 = Show.ScreenID show2 ->
    ~ ((Show.StartTime show1 < Show.EndTime show2)%Z
       /\ (Show.StartTime show2 < Show.EndTime show1)%Z).

(** Every key files a booking carrying that very identifier: what
    [Create] and [Update] establish, given that no code assigns
    [Booking.ID] after [NewBooking]. *)
Definition well_keyed (h : ptr -> Booking.t) (r : MemoryBookingRepository)
    : Prop :=
  forall id p, bookings r !! id = Some p -> Booking.ID (h p) = id.

End repositories.

(** ** Results of a service call *)

Inductive outcome (A : Type) : Type :=
| Ok (a : A)       (* returned [(a, nil)] *)
| Err (e : error)  (* returned [(_, e)] *)
| Panic.           (* nil-pointer dereference *)

Arguments Ok {A} a.
Arguments Err {A} e.
Arguments Panic {A}.

(** ** services/booking_service.go *)

Section BookingService.

Context {BR SR CR : Type}.
Context `{!BookingRepository BR, !ShowRepository SR, !ScreenRepository CR}.

(** Everything a call of the service can read or write: the two heaps,
    the oracles and the fields of [BookingServiceImpl].  A non-nil
    [notificationSvc] is the list of confirmations it has been sent. *)
Record State : Type := mkState {
  seats : SeatHeap;
  bookings : ptr -> Booking.t;
  next_booking : ptr;
  oracle : Oracle;
  bookingRepo : BR;
  showRepo : SR;
  screenRepo : CR;
  notificationSvc : option (list (string * string))
}.

Definition set_seats (h : SeatHeap) (st : State) : State :=
  mkState h (bookings st) (next_booking st) (oracle st) (bookingRepo st)
    (showRepo st) (screenRepo st) (notificationSvc st).

Definition set_bookings (h : ptr -> Booking.t) (n : ptr) (st : State) : State :=
  mkState (seats st) h n (oracle st) (bookingRepo st)
    (showRepo st) (screenRepo st) (notificationSvc st).

Definition set_oracle (o : Oracle) (st : State) : State :=
  mkState (seats st) (bookings st) (next_booking st) o (bookingRepo st)
    (showRepo st) (screenRepo st) (notificationSvc st).

Definition set_bookingRepo (r : BR) (st : State) : State :=
  mkState (seats st) (bookings st) (next_booking st) (oracle st) r
    (showRepo st) (screenRepo st) (notificationSvc st).

Definition set_screenRepo (r : CR) (st : State) : State :=
  mkState (seats st) (bookings st) (next_booking st) (oracle st)
    (bookingRepo st) (showRepo st) r (notificationSvc st).

Definition set_notificationSvc (n : option (list (string * string)))
    (st : State) : State :=
  mkState (seats st) (bookings st) (next_booking st) (oracle st)
    (bookingRepo st) (showRepo st) (screenRepo st) n.

(** State passing with early exit: an error or a panic ends the call, the
    mutations made so far stay. *)
Definition M (A : Type) : Type := State -> outcome A * State.

#[global] Instance M_ret : MRet M := fun A a st => (Ok a, st).

#[global] Instance M_bind : MBind M := fun A B f m st =>
  match m st with
  | (Ok a, st') => f a st'
  | (Err e, st') => (Err e, st')
  | (Panic, st') => (Panic, st')
  end.

Definition fail {A : Type} (e : error) : M A := fun st => (Err e, st).

Definition gets {A : Type} (f : State -> A) : M A := fun st => (Ok (f st), st).

Definition modify (f : State -> State) : M unit := fun st => (Ok tt, f st).

(** [v, err := ...; if err != nil { return nil, err }] *)
Definition try {A : Type} (r : A + error) : M A :=
  match r with
  | inl a => mret a
  | inr e => fail e
  end.

Definition with_oracle {A : Type} (f : Oracle -> A * Oracle) : M A :=
  fun st => let '(a, o) := f (oracle st) in (Ok a, set_oracle o st).

(** The pricing loop of [CreateBooking]. *)
Fixpoint price_seats (screen : Screen.t) (h : SeatHeap)
    (seatIDs : list string) (totalAmount : float) : float + error :=
  match seatIDs with
  | [] => inl totalAmount
  | seatID :: rest =>
      match Screen.GetSeat screen seatID with
      | inr err => inr err
      | inl p =>
          if negb (Seat.IsAvailable (h p)) then inr ErrSeatNotAvailable
          else price_seats screen h rest
                 (totalAmount + Seat.GetPrice (h p))%float
      end
  end.

(** [screen.BlockSeats(seatIDs)] on the seat heap of the state. *)
Definition screen_BlockSeats (screen : Screen.t) (seatIDs : list string)
    : M (option error) :=
  fun st =>
    match Screen.BlockSeats screen seatIDs (seats st) with
    | None => (Panic, st)
    | Some (h, err) => (Ok err, set_seats h st)
    end.

(** The loop of [rollbackSeatBlocking]: the error of [GetSeat] skips the
    seat, the error of [Unblock] is dropped. *)
Fixpoint unblock_each (screen : Screen.t) (seatIDs : list string)
    (h : SeatHeap) : SeatHeap :=
  match seatIDs with
  | [] => h
  | seatID :: rest =>
      match Screen.GetSeat screen seatID with
      | inl p => unblock_each screen rest (call_seat Seat.Unblock p h).1
      | inr _ => unblock_each screen rest h
      end
  end.

Definition rollbackSeatBlocking (screen : Screen.t) (seatIDs : list string)
    : M unit :=
  modify (fun st => set_seats (unblock_each screen seatIDs (seats st)) st).

(** [models.NewBooking] followed by the allocation of the object. *)
Definition new_booking (userID showID : string) (seatIDs : list string)
    (totalAmount : float) : M (ptr + error) :=
  r ← with_oracle (Booking.NewBooking userID showID seatIDs totalAmount);
  match r with
  | inr err => mret (inr err)
  | inl b =>
      p ← gets next_booking;
      _ ← modify (fun st =>
             set_bookings (<[p := b]> (bookings st)) (Pos.succ p) st);
      mret (inl p)
  end.

Definition bookingRepo_Create (booking : ptr) : M (option error) :=
  fun st =>
    let '(r, err) :=
      booking_Create booking (bookings st booking) (bookingRepo st) in
    (Ok err, set_bookingRepo r st).

Definition bookingRepo_Update (booking : ptr) : M (option error) :=
  fun st =>
    let '(r, err) :=
      booking_Update booking (bookings st booking) (bookingRepo st) in
    (Ok err, set_bookingRepo r st).

Definition screenRepo_Update (screen : Screen.t) : M (option error) :=
  fun st =>
    let '(r, err) := screen_Update screen (screenRepo st) in
    (Ok err, set_screenRepo r st).

Definition CreateBooking (userID showID : string) (seatIDs : list string)
    : M ptr :=
  repo ← gets showRepo;
  show ← try (show_GetByID showID repo);
  bookable ← with_oracle (Show.CanBeBooked show);
  if negb bookable then fail ErrShowNotBookable
  else
    repo ← gets screenRepo;
    screen ← try (screen_GetByID (Show.ScreenID show) repo);
    h ← gets seats;
    totalAmount ← try (price_seats screen h seatIDs 0);
    err ← screen_BlockSeats screen seatIDs;
    match err with
    | Some err => fail err
    | None =>
        r ← new_booking userID showID seatIDs totalAmount;
        match r with
        | inr err => _ ← rollbackSeatBlocking screen seatIDs; fail err
        | inl booking =>
            err ← bookingRepo_Create booking;
            match err with
            | Some err => _ ← rollbackSeatBlocking screen seatIDs; fail err
            | None =>
                (* a failed update is printed, not returned *)
                _ ← screenRepo_Update screen;
                mret booking
            end
        end
    end.

(** A call through a [*Booking] that also reads the clock. *)
Definition call_booking
    (f : Booking.t -> Oracle -> Booking.t * option error * Oracle)
    (p : ptr) : M (option error) :=
  fun st =>
    let '(b, err, o) := f (bookings st p) (oracle st) in
    (Ok err,
     set_oracle o (set_bookings (<[p := b]> (bookings st)) (next_booking st) st)).

(** The seat loop of [ConfirmBooking]: a seat that is missing is skipped
    and the error of [Book] is printed. *)
Fixpoint book_each (screen : Screen.t) (seatIDs : list string)
    (h : SeatHeap) : SeatHeap :=
  match seatIDs with
  | [] => h
  | seatID :: rest =>
      match Screen.GetSeat screen seatID with
      | inr _ => book_each screen rest h
      | inl p => book_each screen rest (call_seat Seat.Book p h).1
      end
  end.

Definition SendBookingConfirmation (userID bookingID : string) : M unit :=
  modify (fun st =>
    match notificationSvc st with
    | None => st
    | Some sent =>
        set_notificationSvc (Some (sent ++ [(userID, bookingID)])) st
    end).


End BookingService.

(** [BookingServiceImpl.GetBooking] *)
Definition GetBooking {BR SR CR : Type} `{!BookingRepository BR}
    (id : string) : @M BR SR CR ptr :=
  repo ← gets bookingRepo;
  try (booking_GetByID id repo).

(** ** services/basic_services.go: the show service *)

Section ShowService.

Context {SR MR TR CR T : Type}.
Context `{!ShowRepository SR, !ShowSchedule SR, !MovieRepository MR,
          !TheatreRepository TR T, !ScreenRepository CR}.

(** The fields of [ShowServiceImpl], and the oracles. *)
Record ShowServiceImpl : Type := mkShowService {
  ss_showRepo : SR;
  ss_movieRepo : MR;
  ss_theatreRepo : TR;
  ss_screenRepo : CR;
  ss_oracle : Oracle
}.

Definition CreateShow (movieID theatreID screenID : string)
    (startTime : Time) (basePrice : float) (ss : ShowServiceImpl)
    : (Show.t + error) * ShowServiceImpl :=
  match movie_GetByID movieID (ss_movieRepo ss) with
  | inr err => (inr err, ss)
  | inl movie =>
      match theatre_GetByID theatreID (ss_theatreRepo ss) with
      | inr err => (inr err, ss)
      | inl _ =>
          match screen_GetByID screenID (ss_screenRepo ss) with
          | inr err => (inr err, ss)
          | inl screen =>
              if bool_decide (Screen.TheatreID screen ≠ theatreID)
              then (inr ErrInvalidShowData, ss)
              else
                let endTime := (startTime + Movie.Duration movie)%Z in
                match show_CheckConflict screenID startTime endTime
                        (ss_showRepo ss) with
                | inr err => (inr err, ss)
                | inl hasConflict =>
                    if hasConflict then (inr ErrInvalidShowTime, ss)
                    else
                      let '(r, o) :=
                        Show.NewShow movieID theatreID screenID startTime
                          basePrice (Movie.Duration movie) (ss_oracle ss) in
                      match r with
                      | inr err =>
                          (inr err,
                           mkShowService (ss_showRepo ss) (ss_movieRepo ss)
                             (ss_theatreRepo ss) (ss_screenRepo ss) o)
                      | inl show =>
                          let '(repo, err) :=
                            show_Create show (ss_showRepo ss) in
                          let ss' :=
                            mkShowService repo (ss_movieRepo ss)
                              (ss_theatreRepo ss) (ss_screenRepo ss) o in
                          match err with
                          | Some err => (inr err, ss')
                          | None => (inl show, ss')
                          end
                      end
                end
          end
      end
  end.

End ShowService.

(** * A small theatre, used to run the code on concrete inputs *)

Module Demo.

Definition seatA1 : Seat.t :=
  Seat.NewSeat "s-A1" "A" 1 Seat.SeatTypeVIP 100.

Definition seatA2 : Seat.t :=
  Seat.NewSeat "s-A2" "A" 2 Seat.SeatTypePremium 150.

(** Held by somebody else. *)
Definition seatA3 : Seat.t :=
  Seat.set_Status Seat.SeatStatusBlocked
    (Seat.NewSeat "s-A3" "A" 3 Seat.SeatTypeRegular 80).

Definition heap : SeatHeap :=
  <[1%positive := seatA1]> (<[2%positive := seatA2]> (fun _ => seatA3)).

Definition screen1 : Screen.t :=
  Screen.AddSeat heap 3 (Screen.AddSeat heap 2 (Screen.AddSeat heap 1
    (Screen.NewScreen "screen-1" "Screen 1" "theatre-1"))).

(** The same [*Seat] handed to [AddSeat] twice. *)
Definition screen_twice : Screen.t :=
  Screen.AddSeat heap 1 (Screen.AddSeat heap 1
    (Screen.NewScreen "screen-2" "Screen 2" "theatre-1")).

Definition show1 : Show.t :=
  {| Show.ID := "show-1"; Show.MovieID := "movie-1";
     Show.TheatreID := "theatre-1"; Show.ScreenID := "screen-1";
     Show.StartTime := 7200 * 1000000000;
     Show.EndTime := 16200 * 1000000000; Show.BasePrice := 100;
     Show.CreatedAt := 0; Show.UpdatedAt := 0 |}.

(** A clock that stands at [now]. *)
Definition oracle_at (now : Time) : Oracle :=
  {| readings := fun _ => now; tick := 0; uuids := fun _ => "b-1"; drawn := 0 |}.

Definition booking_with (st : Booking.BookingStatus) : Booking.t :=
  {| Booking.ID := "b-0"; Booking.UserID := "u-1"; Booking.ShowID := "show-1";
     Booking.SeatIDs := ["s-A1"; "s-A3"; "s-A9"]; Booking.TotalAmount := 180;
     Booking.Status := st; Booking.BookingTime := 0;
     Booking.ExpiryTime := Booking.BookingTimeout; Booking.PaymentID := "";
     Booking.CreatedAt := 0; Booking.UpdatedAt := 0 |}.

(** A booking store whose writes are refused. *)
Record FailingStore : Type := { refused : nat }.

#[global] Instance failing_store : BookingRepository FailingStore := {
  booking_Create _ _ r :=
    ({| refused := S (refused r) |}, Some (ErrOther "write failed"));
  booking_GetByID _ _ := inr ErrBookingNotFound;
  booking_Update _ _ r :=
    ({| refused := S (refused r) |}, Some (ErrOther "write failed"))
}.

Definition memory_shows : repositories.MemoryShowRepository :=
  (show_Create show1 {| repositories.shows := ∅ |}).1.

Definition memory_screens : repositories.MemoryScreenRepository :=
  (screen_Create screen1 {| repositories.screens := ∅ |}).1.

(** A pending booking is on file under its identifier; the clock stands
    at one minute. *)
Definition state_memory
    : @State repositories.MemoryBookingRepository
        repositories.MemoryShowRepository repositories.MemoryScreenRepository :=
  {| seats := heap;
     bookings := fun _ => booking_with Booking.BookingStatusPending;
     next_booking := 2;
     oracle := oracle_at Minute;
     bookingRepo := {| repositories.bookings := {[ "b-0" := 1%positive ]} |};
     showRepo := memory_shows;
     screenRepo := memory_screens;
     notificationSvc := Some [] |}.

(** The same theatre in front of the refusing store. *)
Definition state_failing
    : @State FailingStore
        repositories.MemoryShowRepository repositories.MemoryScreenRepository :=
  {| seats := heap;
     bookings := fun _ => booking_with Booking.BookingStatusPending;
     next_booking := 1;
     oracle := oracle_at Minute;
     bookingRepo := {| refused := 0 |};
     showRepo := memory_shows;
     screenRepo := memory_screens;
     notificationSvc := None |}.

End Demo.

(** The loop of main.go that fills a screen: [AddSeat] for each seat of
    the slice, in order. *)
Definition add_seats (h : SeatHeap) (seats : list ptr) (s : Screen.t)
    : Screen.t :=
  fold_left (fun s seat => Screen.AddSeat h seat s) seats s.

(** * Further concrete inputs *)

Module Demo2.

(** A screen whose mapping files one seat under two identifiers. *)
Definition screen_alias : Screen.t :=
  {| Screen.ID := "screen-3"; Screen.Name := "Screen 3";
     Screen.TheatreID := "theatre-1"; Screen.Capacity := 2;
     Screen.Seats := {[ "s-A1" := 1%positive; "s-A1-bis" := 1%positive ]} |}.

Definition payment_with (st : Payment.PaymentStatus) : Payment.t :=
  {| Payment.ID := "p-1"; Payment.BookingID := "b-0"; Payment.UserID := "u-1";
     Payment.Amount := 250; Payment.Method := Payment.PaymentMethodUPI;
     Payment.Status := st; Payment.TransactionID := "UPI_1";
     Payment.GatewayResponse := ""; Payment.FailureReason := "";
     Payment.RefundAmount := 0; Payment.RefundReason := "";
     Payment.ProcessedAt := Some 5%Z; Payment.RefundedAt := None;
     Payment.CreatedAt := 0; Payment.UpdatedAt := 5 |}.

(** Seat 12 of row H. *)
Definition seatH12 : Seat.t :=
  Seat.NewSeat "s-H12" "H" 12 Seat.SeatTypeRegular 100.

(** A booking store that finds the one record it holds and refuses every
    write. *)
Record ReadOnlyStore : Type := { on_file : ptr }.

#[global] Instance read_only_store : BookingRepository ReadOnlyStore := {
  booking_Create _ _ r := (r, Some (ErrOther "write failed"));
  booking_GetByID _ r := inl (on_file r);
  booking_Update _ _ r := (r, Some (ErrOther "write failed"))
}.


End Demo2.

(** * Properties *)

(** ** Seats *)

Lemma seat_run_cases (o : Seat.op) (s : Seat.t) :
  (exists e, Seat.run o s = (s, Some e))
  \/ (exists st, Seat.edge o (Seat.Status s) st
                 /\ Seat.run o s = (Seat.set_Status st s, None)).
Proof.
  destruct o; cbn [Seat.run]; unfold Seat.Block, Seat.Book, Seat.Unblock;
    case_bool_decide as Hs; eauto;
    right; eexists; (split; [|reflexivity]);
    rewrite Hs; constructor.
Qed.

(** C7. A seat changes status only along Available->Blocked (Block),
    Blocked->Booked (Book) or Blocked->Available (Unblock): every call of
    a mutator either takes its own edge and returns nil, or returns an
    error and leaves the seat as it was.  Book on an available seat is
    refused with the seat-not-blocked error, no mutator takes a seat from
    Available to Booked, and no mutator changes a booked seat. *)
Theorem seat_lifecycle_ordering :
  (forall (o : Seat.op) (s : Seat.t),
      (snd (Seat.run o s) = None
       /\ Seat.edge o (Seat.Status s) (Seat.Status (fst (Seat.run o s))))
      \/ (snd (Seat.run o s) <> None /\ fst (Seat.run o s) = s))
  /\ (forall s : Seat.t,
        Seat.Status s = Seat.SeatStatusAvailable ->
        Seat.Book s = (s, Some ErrSeatNotBlocked))
  /\ (forall (o : Seat.op) (s : Seat.t),
        Seat.Status s = Seat.SeatStatusAvailable ->
        Seat.Status (fst (Seat.run o s)) <> Seat.SeatStatusBooked)
  /\ (forall (o : Seat.op) (s : Seat.t),
        Seat.Status s = Seat.SeatStatusBooked ->
        snd (Seat.run o s) <> None /\ fst (Seat.run o s) = s).
Proof.
  split; [|split; [|split]].
  - intros o s.
    destruct (seat_run_cases o s) as [[e ->]|(st & Hedge & ->)]; cbn.
    + right. split; [discriminate | reflexivity].
    + left. split; [reflexivity | exact Hedge].
  - intros s Hs. unfold Seat.Book. rewrite Hs. reflexivity.
  - intros o s Hs.
    destruct (seat_run_cases o s) as [[e ->]|(st & Hedge & ->)]; cbn.
    + rewrite Hs. discriminate.
    + rewrite Hs in Hedge. inversion Hedge; discriminate.
  - intros o s Hs.
    destruct (seat_run_cases o s) as [[e ->]|(st & Hedge & ->)]; cbn.
    + split; [discriminate | reflexivity].
    + rewrite Hs in Hedge. inversion Hedge.
Qed.

Lemma seat_lifecycle_ordering_witness :
  Seat.Book Demo.seatA1 = (Demo.seatA1, Some ErrSeatNotBlocked)
  /\ Seat.Status (fst (Seat.run Seat.OpBook Demo.seatA1))
     <> Seat.SeatStatusBooked
  /\ fst (Seat.run Seat.OpUnblock
            (Seat.set_Status Seat.SeatStatusBooked Demo.seatA1))
     = Seat.set_Status Seat.SeatStatusBooked Demo.seatA1.
Proof.
  destruct seat_lifecycle_ordering as (_ & Hbook & Hdirect & Hbooked).
  split; [apply Hbook; reflexivity|].
  split; [apply Hdirect; reflexivity|].
  apply Hbooked; reflexivity.
Defined.

(** ** Bookings *)

(** Outside the pair (Cancel, Expired) a booking in a terminal state
    refuses every mutator and is left exactly as it was. *)
Lemma terminal_refuses (x : Booking.op) (b : Booking.t) (o : Oracle) :
  Booking.terminal (Booking.Status b) = true ->
  ~ (x = Booking.OpCancel /\ Booking.Status b = Booking.BookingStatusExpired) ->
  exists e, Booking.run x b o = (b, Some e, o).
Proof.
  intros Hterm Hnot.
  destruct x; cbn [Booking.run];
    unfold Booking.Confirm, Booking.Cancel, Booking.Expire;
    destruct (Booking.Status b) eqn:Hs; try discriminate Hterm;
    cbn; eauto.
  exfalso. apply Hnot. split; reflexivity.
Qed.

Lemma Cancel_from_Expired (b : Booking.t) (o : Oracle) :
  Booking.Status b = Booking.BookingStatusExpired ->
  Booking.Cancel b o
  = (Booking.set_UpdatedAt (time_Now o).1
       (Booking.set_Status Booking.BookingStatusCancelled b),
     None, (time_Now o).2).
Proof. intros Hs. unfold Booking.Cancel. rewrite Hs. reflexivity. Qed.

(** C2. The statement requires Cancel on an expired booking to fail and
    leave it expired.  The code lets it through: the call returns nil and
    the booking ends up cancelled, although [CanBeCancelled] answers false
    for that very booking. *)
Theorem cancel_moves_expired_booking :
  Booking.terminal
    (Booking.Status (Demo.booking_with Booking.BookingStatusExpired)) = true
  /\ Booking.CanBeCancelled
       (Demo.booking_with Booking.BookingStatusExpired) = false
  /\ snd (fst (Booking.Cancel
                 (Demo.booking_with Booking.BookingStatusExpired)
                 (Demo.oracle_at 5))) = None
  /\ Booking.Status
       (fst (fst (Booking.Cancel
                    (Demo.booking_with Booking.BookingStatusExpired)
                    (Demo.oracle_at 5))))
     = Booking.BookingStatusCancelled.
Proof. repeat split. Qed.

(** C3. Confirm on a pending booking whose deadline lies before the time
    read by the call returns the booking-expired error and leaves the
    booking expired, whatever the payment identifier; nothing else of the
    booking changes, so it is not confirmed and no payment is recorded. *)
Theorem confirm_after_deadline
    (paymentID : string) (b : Booking.t) (o : Oracle) :
  Booking.Status b = Booking.BookingStatusPending ->
  (Booking.ExpiryTime b < fst (time_Now o))%Z ->
  Booking.Confirm paymentID b o
  = (Booking.set_Status Booking.BookingStatusExpired b,
     Some ErrBookingExpired, snd (time_Now o)).
Proof.
  intros Hs Hlate. unfold Booking.Confirm.
  case_bool_decide as Hp; [congruence|].
  cbn in *. unfold After.
  rewrite bool_decide_true by exact Hlate. reflexivity.
Qed.

Lemma confirm_after_deadline_witness :
  Booking.Status
    (fst (fst (Booking.Confirm "pay-1"
                 (Demo.booking_with Booking.BookingStatusPending)
                 (Demo.oracle_at (16 * Minute)))))
  = Booking.BookingStatusExpired.
Proof.
  rewrite (confirm_after_deadline "pay-1"
             (Demo.booking_with Booking.BookingStatusPending)
             (Demo.oracle_at (16 * Minute))).
  - reflexivity.
  - reflexivity.
  - vm_compute. reflexivity.
Defined.

(** C10. On a confirmed booking [CanBeCancelled] answers true, yet
    [Cancel] returns the already-confirmed error and leaves the booking
    (and the clock) untouched. *)
Theorem confirmed_cancellable_but_not_cancelled
    (b : Booking.t) (o : Oracle) :
  Booking.Status b = Booking.BookingStatusConfirmed ->
  Booking.CanBeCancelled b = true
  /\ Booking.Cancel b o = (b, Some ErrBookingAlreadyConfirmed, o).
Proof.
  intros Hs. unfold Booking.CanBeCancelled, Booking.Cancel.
  rewrite Hs. split; reflexivity.
Qed.

Lemma confirmed_cancellable_but_not_cancelled_witness :
  Booking.CanBeCancelled (Demo.booking_with Booking.BookingStatusConfirmed)
  = true
  /\ Booking.Cancel (Demo.booking_with Booking.BookingStatusConfirmed)
       (Demo.oracle_at 5)
     = (Demo.booking_with Booking.BookingStatusConfirmed,
        Some ErrBookingAlreadyConfirmed, Demo.oracle_at 5).
Proof.
  apply (confirmed_cancellable_but_not_cancelled
           (Demo.booking_with Booking.BookingStatusConfirmed)
           (Demo.oracle_at 5)).
  reflexivity.
Defined.

(** The mutators assign [Status], [PaymentID] and [UpdatedAt] only. *)
Lemma run_keeps_amount (x : Booking.op) (b : Booking.t) (o : Oracle) :
  Booking.TotalAmount (fst (fst (Booking.run x b o))) = Booking.TotalAmount b
  /\ Booking.SeatIDs (fst (fst (Booking.run x b o))) = Booking.SeatIDs b.
Proof.
  destruct x; cbn [Booking.run];
    unfold Booking.Confirm, Booking.Cancel, Booking.Expire;
    repeat (case_bool_decide; cbn; try (split; reflexivity));
    unfold After; case_bool_decide; split; reflexivity.
Qed.

Lemma run_all_keeps_amount (xs : list Booking.op) :
  forall (b : Booking.t) (o : Oracle),
    Booking.TotalAmount (fst (Booking.run_all xs b o)) = Booking.TotalAmount b.
Proof.
  induction xs as [|x xs IH]; intros b o; [reflexivity|].
  cbn [Booking.run_all].
  pose proof (run_keeps_amount x b o) as [Hamount _].
  destruct (Booking.run x b o) as [[b' e] o']. cbn in Hamount.
  rewrite IH. exact Hamount.
Qed.

(** ** Screens: capacity *)

(** Adding a seat under a new identifier keeps the count in step with the
    mapping (short of the overflow of [int]). *)
Lemma AddSeat_fresh (h : SeatHeap) (seat : ptr) (s : Screen.t) :
  Screen.Seats s !! Seat.ID (h seat) = None ->
  Screen.Capacity s = Z.of_nat (size (Screen.Seats s)) ->
  (Screen.Capacity s + 1 < 2 ^ 63)%Z ->
  Screen.Capacity (Screen.AddSeat h seat s)
  = Z.of_nat (size (Screen.Seats (Screen.AddSeat h seat s))).
Proof.
  intros Hfresh Hinv Hsmall. cbn.
  rewrite map_size_insert_None by exact Hfresh.
  unfold wrap_int.
  rewrite Z.mod_small by lia. lia.
Qed.

(** Adding under an identifier already present replaces the entry and
    still counts it. *)
Lemma AddSeat_present (h : SeatHeap) (seat : ptr) (s : Screen.t) :
  is_Some (Screen.Seats s !! Seat.ID (h seat)) ->
  size (Screen.Seats (Screen.AddSeat h seat s)) = size (Screen.Seats s)
  /\ Screen.Capacity (Screen.AddSeat h seat s)
     = wrap_int (Screen.Capacity s + 1).
Proof.
  intros Hin. cbn. split; [|reflexivity].
  apply map_size_insert_Some. exact Hin.
Qed.

(** C9. The statement requires the capacity to equal the number of
    entries after any sequence of [AddSeat] calls.  Adding the same seat
    twice to a new screen leaves one entry and a capacity of two. *)
Theorem capacity_counts_replaced_seat :
  Demo.screen_twice
  = Screen.AddSeat Demo.heap 1
      (Screen.AddSeat Demo.heap 1
         (Screen.NewScreen "screen-2" "Screen 2" "theatre-1"))
  /\ size (Screen.Seats Demo.screen_twice) = 1%nat
  /\ Screen.GetCapacity Demo.screen_twice = 2%Z.
Proof. repeat split. Qed.

(** ** Screens: holding seats *)

Lemma call_seat_same (f : Seat.t -> Seat.t * option error) (p : ptr)
    (h : SeatHeap) :
  (call_seat f p h).1 p = (f (h p)).1 /\ (call_seat f p h).2 = (f (h p)).2.
Proof.
  unfold call_seat. destruct (f (h p)) as [s' e]. cbn.
  split; [apply fn_lookup_insert | reflexivity].
Qed.

Lemma call_seat_other (f : Seat.t -> Seat.t * option error) (p q : ptr)
    (h : SeatHeap) :
  q <> p -> (call_seat f p h).1 q = h q.
Proof.
  intros Hne. unfold call_seat. destruct (f (h p)) as [s' e]. cbn.
  apply fn_lookup_insert_ne. congruence.
Qed.

Lemma check_seats_None (s : Screen.t) (h : SeatHeap) (seatIDs : list string) :
  Screen.check_seats s h seatIDs = None
  <-> forall seatID, seatID ∈ seatIDs -> Screen.requestable s h seatID.
Proof.
  induction seatIDs as [|x rest IH]; cbn.
  - split; [|reflexivity]. intros _ y Hy. inversion Hy.
  - destruct (Screen.Seats s !! x) as [p|] eqn:Hx.
    + unfold Seat.IsAvailable. case_bool_decide as Hav; cbn.
      * rewrite IH. split.
        -- intros Hrest y Hy. apply elem_of_cons in Hy as [->|Hy].
           ++ exists p. split; assumption.
           ++ apply Hrest, Hy.
        -- intros Hall y Hy. apply Hall. right. exact Hy.
      * split; [discriminate|]. intros Hall. exfalso.
        destruct (Hall x) as (q & Hq & Hst); [left|].
        rewrite Hx in Hq. injection Hq as <-. contradiction.
    + split; [discriminate|]. intros Hall. exfalso.
      destruct (Hall x) as (q & Hq & _); [left|].
      rewrite Hx in Hq. discriminate.
Qed.

Lemma check_seats_app (s : Screen.t) (h : SeatHeap) (pre rest : list string) :
  Screen.check_seats s h pre = None ->
  Screen.check_seats s h (pre ++ rest) = Screen.check_seats s h rest.
Proof.
  induction pre as [|x pre IH]; cbn; [reflexivity|].
  destruct (Screen.Seats s !! x); [|discriminate].
  destruct (negb (Seat.IsAvailable (h p))); [discriminate | exact IH].
Qed.

(** C5. When a requested seat fails the first pass, [BlockSeats] returns
    the error of the first such seat in request order -- seat-not-found
    if it is missing from the mapping, seat-not-available if it is there
    but not available -- and hands back the seat heap it was given: no
    seat is mutated. *)
Theorem BlockSeats_validation_failure
    (s : Screen.t) (h : SeatHeap) (pre post : list string) (bad : string)
    (e : error) :
  (forall seatID, seatID ∈ pre -> Screen.requestable s h seatID) ->
  (Screen.Seats s !! bad = None /\ e = ErrSeatNotFound)
  \/ (exists p, Screen.Seats s !! bad = Some p
                /\ Seat.Status (h p) <> Seat.SeatStatusAvailable
                /\ e = ErrSeatNotAvailable) ->
  Screen.BlockSeats s (pre ++ bad :: post) h = Some (h, Some e).
Proof.
  intros Hpre Hbad. unfold Screen.BlockSeats.
  rewrite check_seats_app by (apply check_seats_None; exact Hpre).
  cbn [Screen.check_seats].
  destruct Hbad as [[-> ->]|(p & -> & Hst & ->)]; [reflexivity|].
  unfold Seat.IsAvailable. rewrite bool_decide_false by exact Hst.
  reflexivity.
Qed.

Lemma BlockSeats_validation_failure_witness :
  Screen.BlockSeats Demo.screen1 (["s-A1"] ++ "s-A3" :: ["s-A2"]) Demo.heap
  = Some (Demo.heap, Some ErrSeatNotAvailable)
  /\ Screen.BlockSeats Demo.screen1 (["s-A1"] ++ "s-A7" :: ["s-A2"]) Demo.heap
     = Some (Demo.heap, Some ErrSeatNotFound).
Proof.
  split; apply BlockSeats_validation_failure.
  - intros y Hy. apply list_elem_of_singleton in Hy as ->.
    exists 1%positive. split; reflexivity.
  - right. exists 3%positive.
    split; [reflexivity|]. split; [discriminate | reflexivity].
  - intros y Hy. apply list_elem_of_singleton in Hy as ->.
    exists 1%positive. split; reflexivity.
  - left. split; reflexivity.
Defined.

(** C1. The statement requires a failed [BlockSeats] to leave every
    requested seat as it was, duplicates included.  Asking twice for the
    same available seat passes the first loop, blocks the seat, fails on
    the second occurrence, and the rollback stops at index 0 because that
    entry equals the failing identifier: the seat stays blocked. *)
Theorem BlockSeats_duplicate_leaves_hold :
  Screen.seat_status Demo.screen1 Demo.heap "s-A1"
  = Some Seat.SeatStatusAvailable
  /\ exists h',
       Screen.BlockSeats Demo.screen1 ["s-A1"; "s-A1"] Demo.heap
       = Some (h', Some ErrSeatNotAvailable)
       /\ Screen.seat_status Demo.screen1 h' "s-A1"
          = Some Seat.SeatStatusBlocked.
Proof.
  split; [reflexivity|].
  eexists. split; [reflexivity|]. reflexivity.
Qed.

(** The second loop, when it runs to the end: a cell either is untouched
    or went from available to blocked on behalf of a requested seat, and
    every requested seat ends up blocked. *)
Lemma block_loop_success (s : Screen.t) (seatIDs todo : list string) :
  forall h h1 : SeatHeap,
    Screen.block_loop s seatIDs todo h = Some (h1, None) ->
    (forall p,
        h1 p = h p
        \/ (Seat.Status (h p) = Seat.SeatStatusAvailable
            /\ h1 p = Seat.set_Status Seat.SeatStatusBlocked (h p)
            /\ exists seatID, seatID ∈ todo /\ Screen.Seats s !! seatID = Some p))
    /\ (forall seatID p,
          seatID ∈ todo -> Screen.Seats s !! seatID = Some p ->
          Seat.Status (h1 p) = Seat.SeatStatusBlocked).
Proof.
  induction todo as [|x rest IH]; intros h h1; cbn [Screen.block_loop].
  - intros [= <-]. split; [left; reflexivity|].
    intros y p Hy. inversion Hy.
  - destruct (Screen.Seats s !! x) as [p0|] eqn:Hx; [|discriminate].
    unfold call_seat, Seat.Block.
    case_bool_decide as Hst.
    { destruct (Screen.rollback s x seatIDs _); discriminate. }
    intros Hloop. apply IH in Hloop as [Hcell Hdone].
    assert (Hp0 : h1 p0 = Seat.set_Status Seat.SeatStatusBlocked (h p0)).
    { destruct (Hcell p0) as [Heq|(Hav & _)].
      - rewrite Heq. apply fn_lookup_insert.
      - rewrite fn_lookup_insert in Hav. discriminate Hav. }
    split.
    + intros p. destruct (decide (p = p0)) as [->|Hne].
      * right. split; [exact Hst|]. split; [exact Hp0|].
        exists x. split; [left | exact Hx].
      * destruct (Hcell p) as [Heq|(Hav & Heq & y & Hy & Hyp)];
          rewrite fn_lookup_insert_ne in * by congruence.
        -- left. exact Heq.
        -- right. split; [exact Hav|]. split; [exact Heq|].
           exists y. split; [right; exact Hy | exact Hyp].
    + intros y p Hy Hyp. apply elem_of_cons in Hy as [->|Hy].
      * rewrite Hx in Hyp. injection Hyp as <-. rewrite Hp0. reflexivity.
      * eapply Hdone; eassumption.
Qed.

(** The loop of [rollbackSeatBlocking]: a cell either is untouched or
    went from blocked to available on behalf of a listed seat, and every
    listed seat that was blocked ends up available. *)
Lemma unblock_each_spec (s : Screen.t) (seatIDs : list string) :
  forall h : SeatHeap,
    (forall p,
        unblock_each s seatIDs h p = h p
        \/ (Seat.Status (h p) = Seat.SeatStatusBlocked
            /\ unblock_each s seatIDs h p
               = Seat.set_Status Seat.SeatStatusAvailable (h p)
            /\ exists seatID,
                 seatID ∈ seatIDs /\ Screen.Seats s !! seatID = Some p))
    /\ (forall seatID p,
          seatID ∈ seatIDs -> Screen.Seats s !! seatID = Some p ->
          Seat.Status (h p) = Seat.SeatStatusBlocked ->
          Seat.Status (unblock_each s seatIDs h p) = Seat.SeatStatusAvailable).
Proof.
  induction seatIDs as [|x rest IH]; intros h; cbn [unblock_each].
  - split; [left; reflexivity|]. intros y p Hy. inversion Hy.
  - unfold Screen.GetSeat.
    destruct (Screen.Seats s !! x) as [p0|] eqn:Hx.
    2:{ destruct (IH h) as [Hcell Hdone]. split.
        - intros p. destruct (Hcell p) as [Heq|(Hb & Heq & y & Hy & Hyp)];
            [left; exact Heq|].
          right. split; [exact Hb|]. split; [exact Heq|].
          exists y. split; [right; exact Hy | exact Hyp].
        - intros y p Hy Hyp. apply elem_of_cons in Hy as [->|Hy];
            [congruence|]. apply (Hdone y p Hy Hyp). }
    set (h' := (call_seat Seat.Unblock p0 h).1).
    destruct (IH h') as [Hcell Hdone].
    assert (Hother : forall p, p <> p0 -> h' p = h p).
    { intros p Hne. apply call_seat_other. exact Hne. }
    assert (Hsame : h' p0 = (Seat.Unblock (h p0)).1).
    { apply call_seat_same. }
    assert (Hp0 : Seat.Status (h p0) = Seat.SeatStatusBlocked ->
                  unblock_each s rest h' p0
                  = Seat.set_Status Seat.SeatStatusAvailable (h p0)).
    { intros Hb. unfold Seat.Unblock in Hsame.
      rewrite bool_decide_false in Hsame by (intros Hn; apply Hn, Hb).
      cbn in Hsame.
      destruct (Hcell p0) as [Heq|(Hb' & _)]; [congruence|].
      rewrite Hsame in Hb'. discriminate Hb'. }
    split.
    + intros p. destruct (decide (p = p0)) as [->|Hne].
      * destruct (decide (Seat.Status (h p0) = Seat.SeatStatusBlocked))
          as [Hb|Hnb].
        -- right. split; [exact Hb|]. split; [apply Hp0, Hb|].
           exists x. split; [left | exact Hx].
        -- assert (Hkeep : h' p0 = h p0).
           { rewrite Hsame. unfold Seat.Unblock.
             rewrite bool_decide_true by exact Hnb. reflexivity. }
           destruct (Hcell p0) as [Heq|(Hb' & _)]; [left; congruence|].
           rewrite Hkeep in Hb'. contradiction.
      * rewrite <- (Hother p Hne).
        destruct (Hcell p) as [Heq|(Hb & Heq & y & Hy & Hyp)];
          [left; exact Heq|].
        right. split; [exact Hb|]. split; [exact Heq|].
        exists y. split; [right; exact Hy | exact Hyp].
    + intros y p Hy Hyp Hb. destruct (decide (p = p0)) as [->|Hne].
      * rewrite (Hp0 Hb). reflexivity.
      * apply elem_of_cons in Hy as [->|Hy]; [congruence|].
        apply (Hdone y p Hy Hyp). rewrite (Hother p Hne). exact Hb.
Qed.

(** Holding a request that passed validation and releasing it again
    gives back the heap one started from, cell by cell. *)
Lemma hold_then_release (s : Screen.t) (seatIDs all : list string)
    (h h1 : SeatHeap) :
  Screen.check_seats s h seatIDs = None ->
  Screen.block_loop s all seatIDs h = Some (h1, None) ->
  forall p, unblock_each s seatIDs h1 p = h p.
Proof.
  intros Hcheck Hloop p.
  pose proof (proj1 (check_seats_None s h seatIDs) Hcheck) as Hreq.
  destruct (block_loop_success s all seatIDs h h1 Hloop) as [Hcell Hdone].
  destruct (unblock_each_spec s seatIDs h1) as [Hcell' Hdone'].
  destruct (Hcell p) as [Heq|(Hav & Heq & y & Hy & Hyp)].
  - destruct (Hcell' p) as [Heq'|(Hb & _ & y & Hy & Hyp)]; [congruence|].
    destruct (Hreq y Hy) as (q & Hq & Hav).
    rewrite Hyp in Hq. injection Hq as <-.
    rewrite Heq in Hb. rewrite Hb in Hav. discriminate Hav.
  - pose proof (Hdone y p Hy Hyp) as Hb.
    destruct (Hcell' p) as [Heq'|(_ & Heq' & _)].
    + pose proof (Hdone' y p Hy Hyp Hb) as Hav'.
      rewrite Heq', Hb in Hav'. discriminate Hav'.
    + rewrite Heq', Heq. destruct (h p). cbn in *. subst. reflexivity.
Qed.

(** ** The booking service *)

Lemma price_seats_checked (s : Screen.t) (h : SeatHeap) (seatIDs : list string) :
  forall acc : float,
    Screen.check_seats s h seatIDs = None ->
    exists total, price_seats s h seatIDs acc = inl total.
Proof.
  induction seatIDs as [|x rest IH]; intros acc; cbn.
  - eauto.
  - unfold Screen.GetSeat. destruct (Screen.Seats s !! x) as [p|]; [|discriminate].
    destruct (negb (Seat.IsAvailable (h p))); [discriminate|]. apply IH.
Qed.

(** The amount computed by the pricing loop: the prices of the requested
    seats added from left to right, starting from [acc]. *)
Lemma price_seats_sum (s : Screen.t) (h : SeatHeap) (seatIDs : list string) :
  forall acc total : float,
    price_seats s h seatIDs acc = inl total ->
    exists ps : list ptr,
      Forall2 (fun seatID p => Screen.Seats s !! seatID = Some p) seatIDs ps
      /\ total = fold_left (fun a p => (a + Seat.Price (h p))%float) ps acc.
Proof.
  induction seatIDs as [|x rest IH]; intros acc total; cbn.
  - intros [= <-]. exists []. split; [constructor | reflexivity].
  - unfold Screen.GetSeat. destruct (Screen.Seats s !! x) as [p|] eqn:Hx;
      [|discriminate].
    destruct (negb (Seat.IsAvailable (h p))); [discriminate|].
    intros Hrest. apply IH in Hrest as (ps & Hps & ->).
    exists (p :: ps). split; [constructor; assumption | reflexivity].
Qed.

(** Unfolds the plumbing of a service call. *)
Ltac run_service :=
  unfold mbind, M_bind, mret, M_ret, gets, try, fail, with_oracle, modify,
    screen_BlockSeats, rollbackSeatBlocking, bookingRepo_Create,
    bookingRepo_Update, screenRepo_Update, call_booking,
    SendBookingConfirmation;
  cbn [seats bookings next_booking oracle bookingRepo showRepo screenRepo
       notificationSvc set_seats set_bookings set_oracle set_bookingRepo
       set_screenRepo set_notificationSvc fst snd negb].

Section ServiceProperties.

Context {BR SR CR : Type}.
Context `{!BookingRepository BR, !ShowRepository SR, !ScreenRepository CR}.

(** C4. In a call of [CreateBooking] that reaches [BlockSeats] and in
    which [BlockSeats] succeeds, when building the record ([NewBooking])
    or storing it ([bookingRepo.Create]) fails with [e], the call returns
    [e], every requested seat is available again, and the seat heap is
    cell by cell the one the call started from. *)
Theorem CreateBooking_compensates (st : @State BR SR CR)
    (userID showID : string) (seatIDs : list string) (show : Show.t)
    (screen : Screen.t) (total : float) (h1 : SeatHeap) (e : error) :
  show_GetByID showID (showRepo st) = inl show ->
  fst (Show.CanBeBooked show (oracle st)) = true ->
  screen_GetByID (Show.ScreenID show) (screenRepo st) = inl screen ->
  price_seats screen (seats st) seatIDs 0 = inl total ->
  Screen.BlockSeats screen seatIDs (seats st) = Some (h1, None) ->
  match fst (Booking.NewBooking userID showID seatIDs total
               (snd (Show.CanBeBooked show (oracle st)))) with
  | inr err => e = err
  | inl b => snd (booking_Create (next_booking st) b (bookingRepo st)) = Some e
  end ->
  exists st' : @State BR SR CR,
    CreateBooking userID showID seatIDs st = (Err e, st')
    /\ (forall seatID, seatID ∈ seatIDs ->
          Screen.seat_status screen (seats st') seatID
          = Some Seat.SeatStatusAvailable)
    /\ (forall p, seats st' p = seats st p).
Proof.
  intros Hshow Hbookable Hscreen Hprice Hblock.
  pose proof Hblock as Hloop. unfold Screen.BlockSeats in Hloop.
  destruct (Screen.check_seats screen (seats st) seatIDs) eqn:Hcheck;
    [discriminate|].
  assert (Hrestored :
    forall p, unblock_each screen seatIDs h1 p = seats st p)
    by (eapply hold_then_release; eassumption).
  assert (Hgoal : forall st1 : @State BR SR CR,
             seats st1 = unblock_each screen seatIDs h1 ->
             (forall seatID, seatID ∈ seatIDs ->
                Screen.seat_status screen (seats st1) seatID
                = Some Seat.SeatStatusAvailable)
             /\ (forall p, seats st1 p = seats st p)).
  { intros st1 ->. split; [|exact Hrestored].
    intros y Hy.
    destruct (proj1 (check_seats_None _ _ _) Hcheck y Hy) as (p & Hp & Hav).
    unfold Screen.seat_status. rewrite Hp. cbn.
    rewrite Hrestored, Hav. reflexivity. }
  unfold CreateBooking. run_service. rewrite Hshow. run_service.
  destruct (Show.CanBeBooked show (oracle st)) as [bookable o1].
  cbn in Hbookable. subst bookable. run_service.
  rewrite Hscreen. run_service. rewrite Hprice. run_service.
  rewrite Hblock. run_service.
  unfold new_booking, Booking.NewBooking. run_service.
  destruct (Booking.invalid_data userID showID seatIDs total); cbn.
  - intros ->. eexists. split; [reflexivity|]. apply Hgoal. reflexivity.
  - rewrite fn_lookup_insert.
    match goal with
    | |- context [booking_Create ?p ?b ?r] =>
        destruct (booking_Create p b r) as [r' err]
    end.
    cbn. intros ->. eexists. split; [reflexivity|]. apply Hgoal. reflexivity.
Qed.

(** Conversely, once the hold has succeeded the only errors the call can
    still return are those two. *)
Lemma CreateBooking_error_after_hold (st st' : @State BR SR CR)
    (userID showID : string) (seatIDs : list string) (show : Show.t)
    (screen : Screen.t) (h1 : SeatHeap) (e : error) :
  show_GetByID showID (showRepo st) = inl show ->
  fst (Show.CanBeBooked show (oracle st)) = true ->
  screen_GetByID (Show.ScreenID show) (screenRepo st) = inl screen ->
  Screen.BlockSeats screen seatIDs (seats st) = Some (h1, None) ->
  CreateBooking userID showID seatIDs st = (Err e, st') ->
  e = ErrInvalidBookingData
  \/ exists p b, snd (booking_Create p b (bookingRepo st)) = Some e.
Proof.
  intros Hshow Hbookable Hscreen Hblock.
  pose proof Hblock as Hloop. unfold Screen.BlockSeats in Hloop.
  destruct (Screen.check_seats screen (seats st) seatIDs) eqn:Hcheck;
    [discriminate|].
  destruct (price_seats_checked screen (seats st) seatIDs 0%float Hcheck)
    as [total Hprice].
  unfold CreateBooking. run_service. rewrite Hshow. run_service.
  destruct (Show.CanBeBooked show (oracle st)) as [bookable o1].
  cbn in Hbookable. subst bookable. run_service.
  rewrite Hscreen. run_service. rewrite Hprice. run_service.
  rewrite Hblock. run_service.
  unfold new_booking, Booking.NewBooking. run_service.
  destruct (Booking.invalid_data userID showID seatIDs total); cbn.
  - intros [= <- <-]. left. reflexivity.
  - match goal with
    | |- context [booking_Create ?p ?b ?r] =>
        destruct (booking_Create p b r) as [r' [err|]] eqn:Hcreate
    end; cbn.
    + intros [= <- <-]. right. do 2 eexists. rewrite Hcreate. reflexivity.
    + destruct (screen_Update screen _) as [r'' err]. discriminate.
Qed.

Lemma block_loop_keeps_price (s : Screen.t) (seatIDs todo : list string)
    (h h1 : SeatHeap) :
  Screen.block_loop s seatIDs todo h = Some (h1, None) ->
  forall p, Seat.Price (h1 p) = Seat.Price (h p).
Proof.
  intros Hloop p.
  destruct (block_loop_success s seatIDs todo h h1 Hloop) as [Hcell _].
  destruct (Hcell p) as [->|(_ & -> & _)]; reflexivity.
Qed.

(** C6. The booking returned by a successful [CreateBooking] carries as
    its total the prices of the requested seats, read when the seats were
    held and added in request order starting from zero; the call changes
    no price, and no sequence of Confirm, Cancel and Expire calls changes
    the total. *)
Theorem CreateBooking_price_conservation (st st' : @State BR SR CR)
    (userID showID : string) (seatIDs : list string) (booking : ptr) :
  CreateBooking userID showID seatIDs st = (Ok booking, st') ->
  exists (show : Show.t) (screen : Screen.t) (ps : list ptr),
    show_GetByID showID (showRepo st) = inl show
    /\ screen_GetByID (Show.ScreenID show) (screenRepo st) = inl screen
    /\ Forall2 (fun seatID p => Screen.Seats screen !! seatID = Some p)
         seatIDs ps
    /\ Booking.TotalAmount (bookings st' booking)
       = fold_left (fun a p => (a + Seat.Price (seats st p))%float) ps 0%float
    /\ (forall p, Seat.Price (seats st' p) = Seat.Price (seats st p))
    /\ (forall (xs : list Booking.op) (o : Oracle),
          Booking.TotalAmount (fst (Booking.run_all xs (bookings st' booking) o))
          = Booking.TotalAmount (bookings st' booking)).
Proof.
  unfold CreateBooking. run_service.
  destruct (show_GetByID showID (showRepo st)) as [show|] eqn:Hshow;
    [|discriminate]. run_service.
  destruct (Show.CanBeBooked show (oracle st)) as [[|] o1]; run_service;
    [|discriminate].
  destruct (screen_GetByID (Show.ScreenID show) (screenRepo st))
    as [screen|] eqn:Hscreen; [|discriminate]. run_service.
  destruct (price_seats screen (seats st) seatIDs 0) as [total|] eqn:Hprice;
    [|discriminate]. run_service.
  destruct (Screen.BlockSeats screen seatIDs (seats st))
    as [[h1 [err|]]|] eqn:Hblock; run_service; try discriminate.
  unfold new_booking, Booking.NewBooking. run_service.
  destruct (Booking.invalid_data userID showID seatIDs total); cbn;
    [discriminate|].
  match goal with
  | |- context [booking_Create ?p ?b ?r] =>
      destruct (booking_Create p b r) as [r' [err|]]
  end; cbn; [discriminate|].
  destruct (screen_Update screen _) as [r'' err]. intros [= <- <-]. cbn.
  apply price_seats_sum in Hprice as (ps & Hps & ->).
  exists show, screen, ps.
  rewrite fn_lookup_insert. cbn.
  repeat (split; [first [reflexivity | assumption]|]).
  split.
  - unfold Screen.BlockSeats in Hblock.
    destruct (Screen.check_seats screen (seats st) seatIDs); [discriminate|].
    eapply block_loop_keeps_price. exact Hblock.
  - intros xs o. apply run_all_keeps_amount.
Qed.

Lemma book_each_spec (s : Screen.t) (seatIDs : list string) :
  forall (h : SeatHeap) (p : ptr),
    book_each s seatIDs h p = h p
    \/ (Seat.Status (h p) = Seat.SeatStatusBlocked
        /\ book_each s seatIDs h p
           = Seat.set_Status Seat.SeatStatusBooked (h p)).
Proof.
  induction seatIDs as [|x rest IH]; intros h p; cbn [book_each].
  - left. reflexivity.
  - unfold Screen.GetSeat. destruct (Screen.Seats s !! x) as [p0|]; [|apply IH].
    set (h' := (call_seat Seat.Book p0 h).1).
    destruct (decide (p = p0)) as [->|Hne].
    + assert (Hsame : h' p0 = (Seat.Book (h p0)).1) by apply call_seat_same.
      unfold Seat.Book in Hsame. revert Hsame.
      case_bool_decide as Hb; cbn; intros Hsame.
      * destruct (IH h' p0) as [Heq|[Hb' _]]; [left; congruence|].
        rewrite Hsame in Hb'. contradiction.
      * right. split; [exact Hb|].
        destruct (IH h' p0) as [Heq|[Hb' _]]; [congruence|].
        rewrite Hsame in Hb'. discriminate Hb'.
    + assert (Hother : h' p = h p) by (apply call_seat_other; exact Hne).
      rewrite <- Hother. apply IH.
Qed.




End ServiceProperties.

(** ** The in-memory booking store *)

(** A booking found under [id] can be written back: the existence check
    of [Update] looks under the identifier the booking carries, which is
    [id] in a well-keyed store. *)
Lemma memory_Update_after_GetByID (h : ptr -> Booking.t)
    (r : repositories.MemoryBookingRepository) (id : string) (p : ptr)
    (b' : Booking.t) :
  repositories.well_keyed h r ->
  booking_GetByID id r = inl p ->
  Booking.ID b' = Booking.ID (h p) ->
  snd (booking_Update p b' r) = None.
Proof.
  intros Hwk Hget Hid. cbn in *.
  destruct (repositories.bookings r !! id) as [q|] eqn:Hq; [|discriminate].
  injection Hget as ->.
  rewrite Hid, (Hwk id p Hq), Hq. reflexivity.
Qed.

Lemma memory_Create_well_keyed (h : ptr -> Booking.t)
    (r : repositories.MemoryBookingRepository) (p : ptr) :
  repositories.well_keyed h r ->
  repositories.well_keyed h (fst (booking_Create p (h p) r)).
Proof.
  intros Hwk id q. cbn.
  destruct (decide (Booking.ID (h p) = id)) as [<-|Hne].
  - rewrite lookup_insert_eq. intros [= <-]. reflexivity.
  - rewrite lookup_insert_ne by exact Hne. apply Hwk.
Qed.

Lemma memory_Update_well_keyed (h : ptr -> Booking.t)
    (r : repositories.MemoryBookingRepository) (p : ptr) :
  repositories.well_keyed h r ->
  repositories.well_keyed h (fst (booking_Update p (h p) r)).
Proof.
  intros Hwk id q. cbn.
  destruct (repositories.bookings r !! Booking.ID (h p)); cbn; [|apply Hwk].
  destruct (decide (Booking.ID (h p) = id)) as [<-|Hne].
  - rewrite lookup_insert_eq. intros [= <-]. reflexivity.
  - rewrite lookup_insert_ne by exact Hne. apply Hwk.
Qed.

(** ** [BlockSeats] returns *)

Lemma rollback_total (s : Screen.t) (seatID : string) (seatIDs : list string) :
  (forall x, x ∈ seatIDs -> is_Some (Screen.Seats s !! x)) ->
  forall h : SeatHeap, is_Some (Screen.rollback s seatID seatIDs h).
Proof.
  induction seatIDs as [|x rest IH]; intros Hdom h; cbn; [eauto|].
  case_bool_decide; [eauto|].
  destruct (Hdom x) as [p ->]; [left|].
  apply IH. intros y Hy. apply Hdom. right. exact Hy.
Qed.

Lemma block_loop_total (s : Screen.t) (seatIDs todo : list string) :
  (forall x, x ∈ seatIDs -> is_Some (Screen.Seats s !! x)) ->
  (forall x, x ∈ todo -> is_Some (Screen.Seats s !! x)) ->
  forall h : SeatHeap, is_Some (Screen.block_loop s seatIDs todo h).
Proof.
  intros Hall. induction todo as [|x rest IH]; intros Hdom h; cbn; [eauto|].
  destruct (Hdom x) as [p ->]; [left|].
  destruct (call_seat Seat.Block p h) as [h' [err|]].
  - destruct (rollback_total s x seatIDs Hall h') as [h'' ->]. cbn. eauto.
  - apply IH. intros y Hy. apply Hdom. right. exact Hy.
Qed.

(** The nil-pointer branches of the model are dead: [BlockSeats] always
    returns. *)
Lemma BlockSeats_total (s : Screen.t) (seatIDs : list string) (h : SeatHeap) :
  is_Some (Screen.BlockSeats s seatIDs h).
Proof.
  unfold Screen.BlockSeats.
  destruct (Screen.check_seats s h seatIDs) eqn:Hcheck; [eauto|].
  assert (Hdom : forall x, x ∈ seatIDs -> is_Some (Screen.Seats s !! x)).
  { intros x Hx.
    destruct (proj1 (check_seats_None s h seatIDs) Hcheck x Hx) as (p & -> & _).
    eauto. }
  apply block_loop_total; exact Hdom.
Qed.

(** ** The theorems of the service on the small theatre *)

Lemma CreateBooking_compensates_witness :
  exists st',
    CreateBooking "u-1" "show-1" ["s-A1"; "s-A2"] Demo.state_failing
    = (Err (ErrOther "write failed"), st')
    /\ (forall seatID, seatID ∈ ["s-A1"; "s-A2"] ->
          Screen.seat_status Demo.screen1 (seats st') seatID
          = Some Seat.SeatStatusAvailable)
    /\ (forall p, seats st' p = seats Demo.state_failing p).
Proof.
  apply (CreateBooking_compensates Demo.state_failing
           "u-1" "show-1" ["s-A1"; "s-A2"] Demo.show1 Demo.screen1
           250%float
           (match Screen.BlockSeats Demo.screen1 ["s-A1"; "s-A2"] Demo.heap with
            | Some (h, _) => h
            | None => Demo.heap
            end)
           (ErrOther "write failed")).
  - reflexivity.
  - reflexivity.
  - reflexivity.
  - reflexivity.
  - reflexivity.
  - reflexivity.
Defined.

Lemma CreateBooking_price_conservation_witness :
  Booking.TotalAmount
    (bookings (snd (CreateBooking "u-1" "show-1" ["s-A1"; "s-A2"]
                      Demo.state_memory)) 2%positive) = 250%float
  /\ exists (show : Show.t) (screen : Screen.t) (ps : list ptr),
       show_GetByID "show-1" (showRepo Demo.state_memory) = inl show
       /\ screen_GetByID (Show.ScreenID show) (screenRepo Demo.state_memory)
          = inl screen
       /\ Forall2 (fun seatID p => Screen.Seats screen !! seatID = Some p)
            ["s-A1"; "s-A2"] ps
       /\ Booking.TotalAmount
            (bookings (snd (CreateBooking "u-1" "show-1" ["s-A1"; "s-A2"]
                              Demo.state_memory)) 2%positive)
          = fold_left
              (fun a p => (a + Seat.Price (seats Demo.state_memory p))%float)
              ps 0%float
       /\ (forall p,
             Seat.Price
               (seats (snd (CreateBooking "u-1" "show-1" ["s-A1"; "s-A2"]
                              Demo.state_memory)) p)
             = Seat.Price (seats Demo.state_memory p))
       /\ (forall (xs : list Booking.op) (o : Oracle),
             Booking.TotalAmount
               (fst (Booking.run_all xs
                       (bookings (snd (CreateBooking "u-1" "show-1"
                                         ["s-A1"; "s-A2"] Demo.state_memory))
                          2%positive) o))
             = Booking.TotalAmount
                 (bookings (snd (CreateBooking "u-1" "show-1"
                                   ["s-A1"; "s-A2"] Demo.state_memory))
                    2%positive)).
Proof.
  split; [reflexivity|].
  apply (CreateBooking_price_conservation Demo.state_memory
           (snd (CreateBooking "u-1" "show-1" ["s-A1"; "s-A2"]
                   Demo.state_memory))
           "u-1" "show-1" ["s-A1"; "s-A2"] 2%positive).
  reflexivity.
Defined.



(** * Further properties of the code *)

(** ** Screens: what a hold does *)

Lemma BlockSeats_success_inv (s : Screen.t) (seatIDs : list string)
    (h h1 : SeatHeap) :
  Screen.BlockSeats s seatIDs h = Some (h1, None) ->
  Screen.check_seats s h seatIDs = None
  /\ Screen.block_loop s seatIDs seatIDs h = Some (h1, None).
Proof.
  unfold Screen.BlockSeats.
  destruct (Screen.check_seats s h seatIDs); [discriminate|].
  intros Hloop. split; [reflexivity | exact Hloop].
Qed.

(** X1. When [BlockSeats] returns nil, every requested seat was available
    and is now blocked, and every cell of the heap either is untouched or
    is the cell of a requested seat that went from available to blocked
    with nothing else changed. *)
Theorem BlockSeats_success_effect (s : Screen.t) (seatIDs : list string)
    (h h1 : SeatHeap) :
  Screen.BlockSeats s seatIDs h = Some (h1, None) ->
  (forall seatID, seatID ∈ seatIDs ->
     Screen.seat_status s h seatID = Some Seat.SeatStatusAvailable
     /\ Screen.seat_status s h1 seatID = Some Seat.SeatStatusBlocked)
  /\ (forall p,
        h1 p = h p
        \/ (Seat.Status (h p) = Seat.SeatStatusAvailable
            /\ h1 p = Seat.set_Status Seat.SeatStatusBlocked (h p)
            /\ exists seatID,
                 seatID ∈ seatIDs /\ Screen.Seats s !! seatID = Some p)).
Proof.
  unfold Screen.BlockSeats.
  destruct (Screen.check_seats s h seatIDs) eqn:Hcheck; [discriminate|].
  intros Hloop.
  destruct (block_loop_success s seatIDs seatIDs h h1 Hloop) as [Hcell Hdone].
  split; [|exact Hcell].
  intros y Hy.
  destruct (proj1 (check_seats_None s h seatIDs) Hcheck y Hy) as (p & Hp & Hav).
  unfold Screen.seat_status. rewrite Hp. cbn.
  rewrite Hav, (Hdone y p Hy Hp). split; reflexivity.
Qed.

Lemma BlockSeats_success_effect_witness :
  exists h1,
    Screen.BlockSeats Demo.screen1 ["s-A1"; "s-A2"] Demo.heap = Some (h1, None)
    /\ Screen.seat_status Demo.screen1 h1 "s-A2"
       = Some Seat.SeatStatusBlocked.
Proof.
  eexists. split; [reflexivity|].
  eapply (BlockSeats_success_effect Demo.screen1 ["s-A1"; "s-A2"] Demo.heap).
  - reflexivity.
  - right. left.
Defined.

Lemma block_loop_success_ptrs (s : Screen.t) (seatIDs todo : list string) :
  forall h h1 : SeatHeap,
    Screen.block_loop s seatIDs todo h = Some (h1, None) ->
    exists ps : list ptr,
      Forall2 (fun seatID p => Screen.Seats s !! seatID = Some p) todo ps
      /\ NoDup ps
      /\ Forall (fun p => Seat.Status (h p) = Seat.SeatStatusAvailable) ps.
Proof.
  induction todo as [|x rest IH]; intros h h1; cbn [Screen.block_loop].
  - intros _. exists []. repeat split; constructor.
  - destruct (Screen.Seats s !! x) as [p0|] eqn:Hx; [|discriminate].
    unfold call_seat, Seat.Block.
    case_bool_decide as Hst.
    { destruct (Screen.rollback s x seatIDs _); discriminate. }
    intros Hloop. apply IH in Hloop as (ps & Hps & Hnd & Hav).
    assert (Hp0 : p0 ∉ ps).
    { intros Hin. rewrite Forall_forall in Hav. apply Hav in Hin.
      rewrite fn_lookup_insert in Hin. discriminate Hin. }
    exists (p0 :: ps). split; [constructor; assumption|].
    split; [constructor; assumption|].
    constructor; [exact Hst|].
    rewrite Forall_forall in Hav |- *. intros p Hp.
    specialize (Hav p Hp).
    rewrite fn_lookup_insert_ne in Hav by (intros ->; contradiction).
    exact Hav.
Qed.

Lemma block_loop_of_ptrs (s : Screen.t) (seatIDs todo : list string) :
  forall (ps : list ptr) (h : SeatHeap),
    Forall2 (fun seatID p => Screen.Seats s !! seatID = Some p) todo ps ->
    NoDup ps ->
    Forall (fun p => Seat.Status (h p) = Seat.SeatStatusAvailable) ps ->
    exists h1, Screen.block_loop s seatIDs todo h = Some (h1, None).
Proof.
  induction todo as [|x rest IH]; intros ps h Hps Hnd Hav;
    cbn [Screen.block_loop].
  - eauto.
  - inversion Hps as [|? p0 ? ps' Hx Hrest]; subst.
    rewrite Hx. unfold call_seat, Seat.Block.
    apply NoDup_cons in Hnd as [Hnotin Hnd].
    apply Forall_cons in Hav as [Hav0 Hav].
    rewrite bool_decide_false by (intros Hn; apply Hn, Hav0).
    apply (IH ps'); [exact Hrest | exact Hnd|].
    rewrite Forall_forall in Hav |- *. intros p Hp.
    rewrite fn_lookup_insert_ne by (intros ->; contradiction).
    apply Hav, Hp.
Qed.

(** X2. [BlockSeats] returns nil exactly when the requested identifiers
    are on file under pairwise different seats, all of them available.  A
    request that names a seat twice therefore never succeeds. *)
Theorem BlockSeats_succeeds_iff (s : Screen.t) (seatIDs : list string)
    (h : SeatHeap) :
  (exists h1, Screen.BlockSeats s seatIDs h = Some (h1, None))
  <-> exists ps : list ptr,
        Forall2 (fun seatID p => Screen.Seats s !! seatID = Some p) seatIDs ps
        /\ NoDup ps
        /\ Forall (fun p => Seat.Status (h p) = Seat.SeatStatusAvailable) ps.
Proof.
  split.
  - intros [h1 Hblock]. unfold Screen.BlockSeats in Hblock.
    destruct (Screen.check_seats s h seatIDs); [discriminate|].
    eapply block_loop_success_ptrs. exact Hblock.
  - intros (ps & Hps & Hnd & Hav). unfold Screen.BlockSeats.
    assert (Hcheck : Screen.check_seats s h seatIDs = None).
    { apply check_seats_None. intros y Hy.
      apply list_elem_of_lookup in Hy as [i Hi].
      destruct (Forall2_lookup_l _ _ _ _ _ Hps Hi) as (p & Hp & Hyp).
      exists p. split; [exact Hyp|].
      rewrite Forall_forall in Hav. apply Hav.
      apply list_elem_of_lookup. eauto. }
    rewrite Hcheck. eapply block_loop_of_ptrs; eassumption.
Qed.

Lemma BlockSeats_succeeds_iff_witness :
  exists ps : list ptr,
    Forall2 (fun seatID p => Screen.Seats Demo.screen1 !! seatID = Some p)
      ["s-A1"; "s-A2"] ps
    /\ NoDup ps
    /\ Forall (fun p => Seat.Status (Demo.heap p) = Seat.SeatStatusAvailable)
         ps.
Proof.
  apply (proj1 (BlockSeats_succeeds_iff Demo.screen1 ["s-A1"; "s-A2"]
                  Demo.heap)).
  eexists. reflexivity.
Defined.

Lemma held_unblock (h hc : SeatHeap) (q : ptr) (qs : list ptr) :
  held h hc (q :: qs) -> held h (call_seat Seat.Unblock q hc).1 qs.
Proof.
  intros (Hnd & Hin & Hout).
  apply NoDup_cons in Hnd as [Hq Hnd].
  destruct (Hin q) as [Hav Hb]; [left|].
  split; [exact Hnd|]. split.
  - intros p Hp.
    rewrite call_seat_other by (intros ->; contradiction).
    apply Hin. right. exact Hp.
  - intros p Hp. destruct (decide (p = q)) as [->|Hne].
    + destruct (call_seat_same Seat.Unblock q hc) as [-> _].
      rewrite Hb. unfold Seat.Unblock. cbn.
      destruct (h q). cbn in *. subst. reflexivity.
    + rewrite call_seat_other by exact Hne.
      apply Hout. intros Hp'. apply elem_of_cons in Hp' as [?|?]; contradiction.
Qed.

Lemma rollback_restores (s : Screen.t) (x : string) (rest : list string)
    (h : SeatHeap) (done : list string) :
  forall (dps : list ptr) (hc h' : SeatHeap),
    x ∉ done ->
    Forall2 (fun seatID p => Screen.Seats s !! seatID = Some p) done dps ->
    held h hc dps ->
    Screen.rollback s x (done ++ x :: rest) hc = Some h' ->
    forall p, h' p = h p.
Proof.
  induction done as [|d done IH]; intros dps hc h' Hx Hdps Hheld; cbn.
  - rewrite bool_decide_true by reflexivity. intros [= <-] p.
    inversion Hdps; subst. destruct Hheld as (_ & _ & Hout).
    apply Hout. intros Hp. inversion Hp.
  - inversion Hdps as [|? q ? qs Hd Hrest]; subst.
    rewrite bool_decide_false by (intros ->; apply Hx; left).
    rewrite Hd. apply (IH qs).
    + intros Hin. apply Hx. right. exact Hin.
    + exact Hrest.
    + apply held_unblock. exact Hheld.
Qed.

Lemma block_loop_failure_restores (s : Screen.t) (seatIDs : list string)
    (h : SeatHeap) (todo : list string) :
  forall (done : list string) (dps : list ptr) (hc h' : SeatHeap) (e : error),
    seatIDs = done ++ todo ->
    NoDup seatIDs ->
    Forall2 (fun seatID p => Screen.Seats s !! seatID = Some p) done dps ->
    held h hc dps ->
    Screen.block_loop s seatIDs todo hc = Some (h', Some e) ->
    forall p, h' p = h p.
Proof.
  induction todo as [|x rest IH]; intros done dps hc h' e Hids Hnd Hdps Hheld;
    cbn [Screen.block_loop]; [discriminate|].
  destruct (Screen.Seats s !! x) as [p0|] eqn:Hx; [|discriminate].
  unfold call_seat at 1. unfold Seat.Block.
  case_bool_decide as Hst.
  - destruct (Screen.rollback s x seatIDs _) as [h''|] eqn:Hroll;
      [|discriminate].
    cbn. intros [= <- _]. subst seatIDs.
    eapply rollback_restores; [| exact Hdps | | exact Hroll].
    + apply NoDup_app in Hnd as (_ & Hdisj & _).
      intros Hin. apply (Hdisj x Hin). left.
    + destruct Hheld as (Hnd' & Hin & Hout).
      split; [exact Hnd'|]. split.
      * intros p Hp. destruct (Hin p Hp) as [Hav Hb]. split; [exact Hav|].
        destruct (decide (p = p0)) as [->|Hne].
        -- rewrite fn_lookup_insert. exact Hb.
        -- rewrite fn_lookup_insert_ne by congruence. exact Hb.
      * intros p Hp. destruct (decide (p = p0)) as [->|Hne].
        -- rewrite fn_lookup_insert. apply Hout, Hp.
        -- rewrite fn_lookup_insert_ne by congruence. apply Hout, Hp.
  - intros Hloop.
    destruct Hheld as (Hnd' & Hin & Hout).
    assert (Hp0 : p0 ∉ dps).
    { intros Hp. destruct (Hin p0 Hp) as [_ Hb].
      rewrite Hb in Hst. discriminate Hst. }
    intros p.
    eapply (IH (done ++ [x]) (dps ++ [p0])); [| exact Hnd | | | exact Hloop].
    + rewrite <- app_assoc. exact Hids.
    + apply Forall2_app; [exact Hdps|]. constructor; [exact Hx | constructor].
    + split; [|split].
      * apply NoDup_app. split; [exact Hnd'|]. split.
        -- intros q Hq Hq'. apply list_elem_of_singleton in Hq' as ->.
           contradiction.
        -- apply NoDup_singleton.
      * intros q Hq. apply elem_of_app in Hq as [Hq|Hq].
        -- destruct (Hin q Hq) as [Hav Hb]. split; [exact Hav|].
           rewrite fn_lookup_insert_ne by (intros ->; contradiction).
           exact Hb.
        -- apply list_elem_of_singleton in Hq as ->.
           rewrite fn_lookup_insert, (Hout p0 Hp0).
           rewrite (Hout p0 Hp0) in Hst. split; [exact Hst | reflexivity].
      * intros q Hq.
        assert (q <> p0) by (intros ->; apply Hq, elem_of_app; right; left).
        rewrite fn_lookup_insert_ne by congruence.
        apply Hout. intros Hq'. apply Hq, elem_of_app. left. exact Hq'.
Qed.

(** X3. For a request that names no seat twice the hold is all or
    nothing: when [BlockSeats] returns an error, every cell of the seat
    heap is what it was before the call.  This covers the failure in the
    second loop, which such a request meets when two identifiers are filed
    under one seat. *)
Theorem BlockSeats_failure_restores (s : Screen.t) (seatIDs : list string)
    (h h' : SeatHeap) (e : error) :
  NoDup seatIDs ->
  Screen.BlockSeats s seatIDs h = Some (h', Some e) ->
  forall p, h' p = h p.
Proof.
  intros Hnd. unfold Screen.BlockSeats.
  destruct (Screen.check_seats s h seatIDs).
  - intros [= <- _] p. reflexivity.
  - apply (block_loop_failure_restores s seatIDs h seatIDs [] []);
      [reflexivity | exact Hnd | constructor|].
    split; [constructor|]. split; [|reflexivity].
    intros p Hp. inversion Hp.
Qed.

Lemma BlockSeats_failure_restores_witness :
  exists h',
    Screen.BlockSeats Demo2.screen_alias ["s-A1"; "s-A1-bis"] Demo.heap
    = Some (h', Some ErrSeatNotAvailable)
    /\ forall p, h' p = Demo.heap p.
Proof.
  eexists. split; [reflexivity|].
  apply (BlockSeats_failure_restores Demo2.screen_alias ["s-A1"; "s-A1-bis"]
           Demo.heap _ ErrSeatNotAvailable).
  - apply NoDup_cons. split; [|apply NoDup_singleton].
    intros Hin. apply list_elem_of_singleton in Hin. discriminate Hin.
  - reflexivity.
Defined.

Lemma check_seats_error (s : Screen.t) (h : SeatHeap) (seatIDs : list string)
    (e : error) :
  Screen.check_seats s h seatIDs = Some e ->
  e = ErrSeatNotFound \/ e = ErrSeatNotAvailable.
Proof.
  induction seatIDs as [|x rest IH]; cbn; [discriminate|].
  destruct (Screen.Seats s !! x); [|intros [= <-]; left; reflexivity].
  destruct (negb _); [intros [= <-]; right; reflexivity | exact IH].
Qed.

(** X4. No double hold: once [BlockSeats] has succeeded for a request,
    any request on the resulting heap that shares an identifier with it
    is refused in the first loop, with seat-not-found or
    seat-not-available, and hands the heap back as it is. *)
Theorem BlockSeats_no_double_hold (s : Screen.t) (first second : list string)
    (h h1 : SeatHeap) (seatID : string) :
  Screen.BlockSeats s first h = Some (h1, None) ->
  seatID ∈ first -> seatID ∈ second ->
  exists e,
    Screen.BlockSeats s second h1 = Some (h1, Some e)
    /\ (e = ErrSeatNotFound \/ e = ErrSeatNotAvailable).
Proof.
  intros Hfirst Hin1 Hin2.
  destruct (BlockSeats_success_inv s first h h1 Hfirst) as [_ Hloop].
  destruct (block_loop_success s first first h h1 Hloop) as [_ Hdone].
  unfold Screen.BlockSeats.
  destruct (Screen.check_seats s h1 second) as [e|] eqn:Hcheck.
  - exists e. split; [reflexivity|]. eapply check_seats_error, Hcheck.
  - exfalso.
    destruct (proj1 (check_seats_None s h1 second) Hcheck seatID Hin2)
      as (p & Hp & Hav).
    rewrite (Hdone seatID p Hin1 Hp) in Hav. discriminate Hav.
Qed.

Lemma BlockSeats_no_double_hold_witness :
  exists h1 e,
    Screen.BlockSeats Demo.screen1 ["s-A1"; "s-A2"] Demo.heap = Some (h1, None)
    /\ Screen.BlockSeats Demo.screen1 ["s-A2"] h1 = Some (h1, Some e)
    /\ (e = ErrSeatNotFound \/ e = ErrSeatNotAvailable).
Proof.
  eexists.
  destruct (BlockSeats_no_double_hold Demo.screen1 ["s-A1"; "s-A2"] ["s-A2"]
              Demo.heap _ "s-A2" eq_refl) as (e & Hsecond & He).
  - right. left.
  - left.
  - exists e. split; [reflexivity|]. split; [exact Hsecond | exact He].
Defined.

(** ** Screens: filling and listing *)

Lemma add_seats_invariant (h : SeatHeap) (seats : list ptr) :
  forall s : Screen.t,
    NoDup (List.map (fun p => Seat.ID (h p)) seats) ->
    (forall p, p ∈ seats -> Screen.Seats s !! Seat.ID (h p) = None) ->
    Screen.Capacity s = Z.of_nat (size (Screen.Seats s)) ->
    (Z.of_nat (size (Screen.Seats s)) + Z.of_nat (length seats) < 2 ^ 63)%Z ->
    Screen.Capacity (add_seats h seats s)
    = Z.of_nat (size (Screen.Seats (add_seats h seats s)))
    /\ size (Screen.Seats (add_seats h seats s))
       = (size (Screen.Seats s) + length seats)%nat
    /\ (forall p, p ∈ seats ->
          Screen.GetSeat (add_seats h seats s) (Seat.ID (h p)) = inl p)
    /\ (forall seatID,
          seatID ∉ List.map (fun p => Seat.ID (h p)) seats ->
          Screen.GetSeat (add_seats h seats s) seatID
          = Screen.GetSeat s seatID).
Proof.
  induction seats as [|q seats IH]; intros s Hnd Hfresh Hcap Hsmall.
  - cbn. repeat split; try assumption; try lia.
    intros p Hp. inversion Hp.
  - cbn [add_seats fold_left List.map length] in *.
    apply NoDup_cons in Hnd as [Hq Hnd].
    assert (Hqfresh : Screen.Seats s !! Seat.ID (h q) = None)
      by (apply Hfresh; left).
    assert (Hsize : size (Screen.Seats (Screen.AddSeat h q s))
                    = S (size (Screen.Seats s)))
      by (cbn; apply map_size_insert_None; exact Hqfresh).
    destruct (IH (Screen.AddSeat h q s)) as (Hc & Hs & Hget & Hothers).
    + exact Hnd.
    + intros p Hp. cbn. rewrite lookup_insert_ne.
      * apply Hfresh. right. exact Hp.
      * intros Heq. apply Hq. rewrite Heq.
        apply list_elem_of_In.
        apply (in_map (fun p => Seat.ID (h p))), list_elem_of_In, Hp.
    + apply AddSeat_fresh; [exact Hqfresh | exact Hcap | lia].
    + rewrite Hsize. lia.
    + fold (add_seats h seats (Screen.AddSeat h q s)) in *.
      split; [exact Hc|]. split; [rewrite Hs, Hsize; lia|]. split.
      * intros p Hp. apply elem_of_cons in Hp as [->|Hp]; [|apply Hget, Hp].
        rewrite Hothers by exact Hq.
        unfold Screen.GetSeat. cbn. rewrite lookup_insert_eq. reflexivity.
      * intros y Hy. rewrite Hothers.
        -- unfold Screen.GetSeat. cbn. rewrite lookup_insert_ne; [reflexivity|].
           intros Heq. apply Hy. rewrite <- Heq. left.
        -- intros Hin. apply Hy. right. exact Hin.
Qed.

(** X5. Filling a new screen with seats whose identifiers are pairwise
    different (fewer than 2^63 of them) leaves the capacity equal to
    the number of seats and to the size of the mapping, and [GetSeat]
    finds each seat under its identifier. *)
Theorem add_seats_to_new_screen (h : SeatHeap) (seats : list ptr)
    (id name theatreID : string) :
  NoDup (List.map (fun p => Seat.ID (h p)) seats) ->
  (Z.of_nat (length seats) < 2 ^ 63)%Z ->
  let s := add_seats h seats (Screen.NewScreen id name theatreID) in
  Screen.GetCapacity s = Z.of_nat (length seats)
  /\ size (Screen.Seats s) = length seats
  /\ (forall p, p ∈ seats -> Screen.GetSeat s (Seat.ID (h p)) = inl p).
Proof.
  intros Hnd Hsmall s.
  destruct (add_seats_invariant h seats (Screen.NewScreen id name theatreID))
    as (Hc & Hs & Hget & _); try assumption.
  - intros p _. apply lookup_empty.
  - reflexivity.
  - change (Screen.Seats (Screen.NewScreen id name theatreID))
      with (∅ : gmap string ptr) in Hs.
    rewrite map_size_empty in Hs. cbn [Nat.add] in Hs.
    unfold Screen.GetCapacity. subst s. rewrite Hc, Hs.
    split; [reflexivity|]. split; [reflexivity | exact Hget].
Qed.

Lemma add_seats_to_new_screen_witness :
  Screen.GetCapacity
    (add_seats Demo.heap [1%positive; 2%positive]
       (Screen.NewScreen "screen-4" "Screen 4" "theatre-1")) = 2%Z
  /\ size (Screen.Seats
             (add_seats Demo.heap [1%positive; 2%positive]
                (Screen.NewScreen "screen-4" "Screen 4" "theatre-1")))
     = 2%nat
  /\ (forall p, p ∈ [1%positive; 2%positive] ->
        Screen.GetSeat
          (add_seats Demo.heap [1%positive; 2%positive]
             (Screen.NewScreen "screen-4" "Screen 4" "theatre-1"))
          (Seat.ID (Demo.heap p)) = inl p).
Proof.
  apply (add_seats_to_new_screen Demo.heap [1%positive; 2%positive]
           "screen-4" "Screen 4" "theatre-1").
  - apply NoDup_cons. split; [|apply NoDup_singleton].
    intros Hin. apply list_elem_of_singleton in Hin. discriminate Hin.
  - reflexivity.
Defined.

Lemma GetAvailableSeats_spec (s : Screen.t) (h : SeatHeap) (p : ptr) :
  p ∈ Screen.GetAvailableSeats s h
  <-> (exists seatID, Screen.Seats s !! seatID = Some p)
      /\ Seat.Status (h p) = Seat.SeatStatusAvailable.
Proof.
  unfold Screen.GetAvailableSeats.
  rewrite list_elem_of_In, filter_In, in_map_iff.
  unfold Seat.IsAvailable. rewrite bool_decide_eq_true.
  split; intros [Hin Hav]; (split; [|exact Hav]).
  - destruct Hin as ([y q] & Heq & Hin). cbn in Heq. subst q.
    exists y. apply elem_of_map_to_list, list_elem_of_In, Hin.
  - destruct Hin as [y Hy]. exists (y, p). split; [reflexivity|].
    apply list_elem_of_In, elem_of_map_to_list, Hy.
Qed.

(** X6. [GetAvailableSeats] lists exactly the seats on file whose status
    is available; after a successful [BlockSeats] it lists none of the
    requested seats and nothing it did not list before. *)
Theorem GetAvailableSeats_after_hold (s : Screen.t) (seatIDs : list string)
    (h h1 : SeatHeap) :
  Screen.BlockSeats s seatIDs h = Some (h1, None) ->
  (forall seatID p,
     seatID ∈ seatIDs -> Screen.Seats s !! seatID = Some p ->
     p ∈ Screen.GetAvailableSeats s h /\ p ∉ Screen.GetAvailableSeats s h1)
  /\ (forall p,
        p ∈ Screen.GetAvailableSeats s h1 -> p ∈ Screen.GetAvailableSeats s h).
Proof.
  intros Hblock.
  destruct (BlockSeats_success_inv s seatIDs h h1 Hblock) as [Hcheck Hloop].
  destruct (block_loop_success s seatIDs seatIDs h h1 Hloop) as [Hcell Hdone].
  split.
  - intros y p Hy Hp. pose proof (Hdone y p Hy Hp) as Hb.
    destruct (proj1 (check_seats_None s h seatIDs) Hcheck y Hy)
      as (q & Hq & Hav).
    rewrite Hp in Hq. injection Hq as <-.
    rewrite !GetAvailableSeats_spec. split.
    + split; [eauto | exact Hav].
    + intros [_ Hav1]. rewrite Hb in Hav1. discriminate Hav1.
  - intros p. rewrite !GetAvailableSeats_spec. intros [Hfile Hav1].
    split; [exact Hfile|].
    destruct (Hcell p) as [Heq|(Hav & _)]; [congruence | exact Hav].
Qed.

Lemma GetAvailableSeats_after_hold_witness :
  exists h1,
    Screen.BlockSeats Demo.screen1 ["s-A1"] Demo.heap = Some (h1, None)
    /\ 1%positive ∈ Screen.GetAvailableSeats Demo.screen1 Demo.heap
    /\ 1%positive ∉ Screen.GetAvailableSeats Demo.screen1 h1.
Proof.
  eexists. split; [reflexivity|].
  eapply (GetAvailableSeats_after_hold Demo.screen1 ["s-A1"] Demo.heap).
  - reflexivity.
  - left.
  - reflexivity.
Defined.

(** ** Bookings: the life cycle *)

(** X7. A booking in a terminal state refuses every mutator but one and
    is left, like the clock, exactly as it was: Confirm and Expire answer
    booking-not-pending, Cancel answers already-confirmed or
    already-cancelled.  The one exception is Cancel on an expired
    booking. *)
Theorem terminal_booking_refuses (x : Booking.op) (b : Booking.t)
    (o : Oracle) :
  Booking.terminal (Booking.Status b) = true ->
  ~ (x = Booking.OpCancel
     /\ Booking.Status b = Booking.BookingStatusExpired) ->
  Booking.run x b o
  = (b,
     Some match x with
          | Booking.OpCancel =>
              if bool_decide
                   (Booking.Status b = Booking.BookingStatusConfirmed)
              then ErrBookingAlreadyConfirmed
              else ErrBookingAlreadyCancelled
          | _ => ErrBookingNotPending
          end,
     o).
Proof.
  intros Hterm Hnot.
  destruct x; cbn [Booking.run];
    unfold Booking.Confirm, Booking.Cancel, Booking.Expire;
    destruct (Booking.Status b) eqn:Hs; try discriminate Hterm;
    try reflexivity.
  exfalso. apply Hnot. split; reflexivity.
Qed.

Lemma terminal_booking_refuses_witness :
  Booking.run Booking.OpExpire
    (Demo.booking_with Booking.BookingStatusCancelled) (Demo.oracle_at 5)
  = (Demo.booking_with Booking.BookingStatusCancelled,
     Some ErrBookingNotPending, Demo.oracle_at 5).
Proof.
  apply (terminal_booking_refuses Booking.OpExpire
           (Demo.booking_with Booking.BookingStatusCancelled)
           (Demo.oracle_at 5)).
  - reflexivity.
  - intros [Hop _]. discriminate Hop.
Defined.

(** X8. A confirmed or cancelled booking is final: no sequence of
    Confirm, Cancel and Expire calls changes any field of it, and none of
    them reads the clock. *)
Theorem confirmed_and_cancelled_are_final (xs : list Booking.op)
    (b : Booking.t) (o : Oracle) :
  Booking.Status b = Booking.BookingStatusConfirmed
  \/ Booking.Status b = Booking.BookingStatusCancelled ->
  Booking.run_all xs b o = (b, o).
Proof.
  intros Hfinal. induction xs as [|x xs IH]; [reflexivity|].
  cbn [Booking.run_all].
  destruct (terminal_refuses x b o) as [e ->].
  - destruct Hfinal as [-> | ->]; reflexivity.
  - intros [_ Hs]. destruct Hfinal as [H | H]; rewrite H in Hs; discriminate.
  - exact IH.
Qed.

Lemma confirmed_and_cancelled_are_final_witness :
  Booking.run_all
    [Booking.OpCancel; Booking.OpExpire; Booking.OpConfirm "pay-2"]
    (Demo.booking_with Booking.BookingStatusConfirmed) (Demo.oracle_at 5)
  = (Demo.booking_with Booking.BookingStatusConfirmed, Demo.oracle_at 5).
Proof.
  apply confirmed_and_cancelled_are_final. left. reflexivity.
Defined.

Lemma Confirm_ok_iff (paymentID : string) (b : Booking.t) (o : Oracle) :
  snd (fst (Booking.Confirm paymentID b o)) = None
  <-> Booking.Status b = Booking.BookingStatusPending
      /\ (fst (time_Now o) <= Booking.ExpiryTime b)%Z.
Proof.
  unfold Booking.Confirm, After.
  case_bool_decide as Hp; cbn.
  - split; [discriminate|]. intros [Hs _]. contradiction.
  - case_bool_decide as Hlate; cbn.
    + split; [discriminate|]. intros [_ Hle]. lia.
    + split; [|reflexivity]. intros _. split; [exact Hp | lia].
Qed.

(** X9. [Confirm] returns nil exactly when the booking is pending and the
    time it reads is not after the deadline; the booking is then
    confirmed and carries the payment identifier, and its identifier,
    seats, amount and deadline are unchanged. *)
Theorem Confirm_succeeds_iff (paymentID : string) (b : Booking.t)
    (o : Oracle) :
  (snd (fst (Booking.Confirm paymentID b o)) = None
   <-> Booking.Status b = Booking.BookingStatusPending
       /\ (fst (time_Now o) <= Booking.ExpiryTime b)%Z)
  /\ (snd (fst (Booking.Confirm paymentID b o)) = None ->
      let b' := fst (fst (Booking.Confirm paymentID b o)) in
      Booking.Status b' = Booking.BookingStatusConfirmed
      /\ Booking.PaymentID b' = paymentID
      /\ Booking.ID b' = Booking.ID b
      /\ Booking.SeatIDs b' = Booking.SeatIDs b
      /\ Booking.TotalAmount b' = Booking.TotalAmount b
      /\ Booking.ExpiryTime b' = Booking.ExpiryTime b).
Proof.
  unfold Booking.Confirm, After.
  case_bool_decide as Hp; cbn.
  - split; [|discriminate]. split; [discriminate|].
    intros [Hs _]. contradiction.
  - case_bool_decide as Hlate; cbn.
    + split; [|discriminate]. split; [discriminate|].
      intros [_ Hle]. lia.
    + split; [|intros _; repeat split].
      split; [|reflexivity]. intros _. split; [exact Hp | lia].
Qed.

Lemma Confirm_succeeds_iff_witness :
  Booking.Status
    (fst (fst (Booking.Confirm "pay-1"
                 (Demo.booking_with Booking.BookingStatusPending)
                 (Demo.oracle_at (15 * Minute)))))
  = Booking.BookingStatusConfirmed.
Proof.
  apply (proj2 (Confirm_succeeds_iff "pay-1"
                  (Demo.booking_with Booking.BookingStatusPending)
                  (Demo.oracle_at (15 * Minute)))).
  reflexivity.
Defined.

(** X10. The hold window: a booking built by [NewBooking] at clock
    reading [now] is pending, and a later [Confirm] succeeds exactly when
    the time it reads is at most [now] plus fifteen minutes. *)
Theorem NewBooking_hold_window (userID showID : string)
    (seatIDs : list string) (totalAmount : float) (o o1 : Oracle)
    (b : Booking.t) :
  Booking.NewBooking userID showID seatIDs totalAmount o = (inl b, o1) ->
  Booking.Status b = Booking.BookingStatusPending
  /\ Booking.SeatIDs b = seatIDs
  /\ Booking.TotalAmount b = totalAmount
  /\ seatIDs <> []
  /\ forall (paymentID : string) (o2 : Oracle),
       snd (fst (Booking.Confirm paymentID b o2)) = None
       <-> (fst (time_Now o2) <= fst (time_Now o) + 15 * Minute)%Z.
Proof.
  unfold Booking.NewBooking.
  destruct (Booking.invalid_data userID showID seatIDs totalAmount) eqn:Hinv;
    [discriminate|].
  cbn. intros [= <- <-]. cbn.
  repeat split.
  - intros ->. unfold Booking.invalid_data in Hinv. cbn in Hinv.
    rewrite !orb_true_r in Hinv. discriminate Hinv.
  - intros Hok. apply Confirm_ok_iff in Hok as [_ Hle]. exact Hle.
  - intros Hle. apply Confirm_ok_iff. split; [reflexivity | exact Hle].
Qed.

Lemma NewBooking_hold_window_witness :
  exists b o1,
    Booking.NewBooking "u-1" "show-1" ["s-A1"] 100 (Demo.oracle_at 0)
    = (inl b, o1)
    /\ snd (fst (Booking.Confirm "pay-1" b (Demo.oracle_at (15 * Minute))))
       = None
    /\ snd (fst (Booking.Confirm "pay-1" b
                   (Demo.oracle_at (15 * Minute + 1))))
       <> None.
Proof.
  do 2 eexists. split; [reflexivity|].
  destruct (NewBooking_hold_window "u-1" "show-1" ["s-A1"] 100
              (Demo.oracle_at 0) _ _ eq_refl) as (_ & _ & _ & _ & Hwin).
  split.
  - apply Hwin. vm_compute. discriminate.
  - intros Hok. apply Hwin in Hok. vm_compute in Hok. apply Hok. reflexivity.
Defined.

(** X11. [TimeUntilExpiry] is never negative and never above the largest
    [Duration]; it is zero for a booking that is not pending or whose
    deadline is not ahead of the time read, and otherwise the time left,
    capped at the largest [Duration]. *)
Theorem TimeUntilExpiry_range (b : Booking.t) (o : Oracle) :
  let remaining := fst (Booking.TimeUntilExpiry b o) in
  (0 <= remaining <= 2 ^ 63 - 1)%Z
  /\ ((0 < remaining)%Z
      <-> Booking.Status b = Booking.BookingStatusPending
          /\ (fst (time_Now o) < Booking.ExpiryTime b)%Z)
  /\ ((0 < remaining)%Z ->
      remaining = Z.min (2 ^ 63 - 1) (Booking.ExpiryTime b - fst (time_Now o))).
Proof.
  unfold Booking.TimeUntilExpiry, Sub.
  case_bool_decide as Hp; cbn.
  - split; [lia|]. split; [|lia]. split; [lia|]. intros [Hs _]. contradiction.
  - case_bool_decide as Hneg; cbn.
    + split; [lia|]. split; [|lia]. split; [lia|]. intros [_ Hlt]. lia.
    + split; [lia|]. split; [|lia]. split; [|lia].
      intros Hpos. split; [exact Hp | lia].
Qed.

Lemma TimeUntilExpiry_range_witness :
  fst (Booking.TimeUntilExpiry
         (Demo.booking_with Booking.BookingStatusPending)
         (Demo.oracle_at Minute)) = (14 * Minute)%Z.
Proof.
  rewrite (proj2 (proj2 (TimeUntilExpiry_range
                           (Demo.booking_with Booking.BookingStatusPending)
                           (Demo.oracle_at Minute)))).
  - reflexivity.
  - reflexivity.
Defined.

(** ** Payments *)

(** X12. No double refund: [ProcessRefund] returns nil only on a
    successful payment and for an amount that is neither at most zero nor
    above the amount paid; the payment is then refunded for that amount,
    and the next [ProcessRefund], whatever its arguments, returns
    payment-not-successful and changes nothing. *)
Theorem ProcessRefund_once (refundAmount refundAmount' : float)
    (refundReason refundReason' : string) (p : Payment.t) (o : Oracle) :
  snd (fst (Payment.ProcessRefund refundAmount refundReason p o)) = None ->
  let p1 := fst (fst (Payment.ProcessRefund refundAmount refundReason p o)) in
  let o1 := snd (Payment.ProcessRefund refundAmount refundReason p o) in
  Payment.Status p = Payment.PaymentStatusSuccess
  /\ PrimFloat.leb refundAmount 0 = false
  /\ PrimFloat.ltb (Payment.Amount p) refundAmount = false
  /\ Payment.Status p1 = Payment.PaymentStatusRefunded
  /\ Payment.RefundAmount p1 = refundAmount
  /\ Payment.Amount p1 = Payment.Amount p
  /\ Payment.ProcessRefund refundAmount' refundReason' p1 o1
     = (p1, Some ErrPaymentNotSuccessful, o1).
Proof.
  unfold Payment.ProcessRefund.
  case_bool_decide as Hs; cbn; [discriminate|].
  destruct (PrimFloat.leb refundAmount 0) eqn:Hle; cbn; [discriminate|].
  destruct (PrimFloat.ltb (Payment.Amount p) refundAmount) eqn:Hlt; cbn;
    [discriminate|].
  intros _. repeat split. exact Hs.
Qed.

(** X13. Whatever is done to a payment -- marking it successful, failed
    or cancelled, or refunding it -- its identifier, booking, user,
    amount, method and creation time stay what [NewPayment] made them;
    and a [ProcessRefund] that returns an error changes nothing at all. *)
Theorem payment_identity_kept (x : Payment.op) (p : Payment.t) (o : Oracle) :
  let p' := fst (fst (Payment.run x p o)) in
  (Payment.ID p' = Payment.ID p
   /\ Payment.BookingID p' = Payment.BookingID p
   /\ Payment.UserID p' = Payment.UserID p
   /\ Payment.Amount p' = Payment.Amount p
   /\ Payment.Method p' = Payment.Method p
   /\ Payment.CreatedAt p' = Payment.CreatedAt p)
  /\ (snd (fst (Payment.run x p o)) <> None ->
      Payment.run x p o = (p, snd (fst (Payment.run x p o)), o)).
Proof.
  destruct x; cbn.
  - split; [repeat split|]. intros Hn. contradiction.
  - split; [repeat split|]. intros Hn. contradiction.
  - split; [repeat split|]. intros Hn. contradiction.
  - unfold Payment.ProcessRefund.
    case_bool_decide; cbn; [split; [repeat split | reflexivity]|].
    destruct (_ || _); cbn; [split; [repeat split | reflexivity]|].
    split; [repeat split|]. intros Hn. contradiction.
Qed.

Lemma ProcessRefund_once_witness :
  Payment.Status
    (fst (fst (Payment.ProcessRefund 100 "rain"
                 (Demo2.payment_with Payment.PaymentStatusSuccess)
                 (Demo.oracle_at 9))))
  = Payment.PaymentStatusRefunded
  /\ snd (fst (Payment.ProcessRefund 50 "again"
                 (fst (fst (Payment.ProcessRefund 100 "rain"
                              (Demo2.payment_with Payment.PaymentStatusSuccess)
                              (Demo.oracle_at 9))))
                 (snd (Payment.ProcessRefund 100 "rain"
                         (Demo2.payment_with Payment.PaymentStatusSuccess)
                         (Demo.oracle_at 9)))))
     = Some ErrPaymentNotSuccessful.
Proof.
  destruct (ProcessRefund_once 100 50 "rain" "again"
              (Demo2.payment_with Payment.PaymentStatusSuccess)
              (Demo.oracle_at 9))
    as (_ & _ & _ & Hst & _ & _ & Hnext).
  - vm_compute. reflexivity.
  - split; [exact Hst|]. rewrite Hnext. reflexivity.
Defined.

Lemma payment_identity_kept_witness :
  Payment.run (Payment.OpProcessRefund 300 "too much")
    (Demo2.payment_with Payment.PaymentStatusSuccess) (Demo.oracle_at 9)
  = (Demo2.payment_with Payment.PaymentStatusSuccess,
     Some ErrInvalidRefundAmount, Demo.oracle_at 9).
Proof.
  rewrite (proj2 (payment_identity_kept
                    (Payment.OpProcessRefund 300 "too much")
                    (Demo2.payment_with Payment.PaymentStatusSuccess)
                    (Demo.oracle_at 9))).
  - vm_compute. reflexivity.
  - vm_compute. discriminate.
Defined.

(** ** Seats: the label *)

(** X14. For a seat number from 0 to 79, [GetSeatNumber] is the row name
    followed by the one character whose code is 48 plus the number: the
    decimal digit up to 9, and a single punctuation mark or letter from
    10 on, never the two digits of the number. *)
Theorem GetSeatNumber_one_character (s : Seat.t) :
  (0 <= Seat.Number s <= 79)%Z ->
  Seat.GetSeatNumber s
  = (Seat.RowName s
     ++ String (ascii_of_N (Z.to_N (48 + Seat.Number s))) EmptyString)%string.
Proof.
  intros Hn. unfold Seat.GetSeatNumber, string_of_rune, byte.
  assert (Hw : wrap_int32 (wrap_int (48 + Seat.Number s))
               = (48 + Seat.Number s)%Z).
  { unfold wrap_int32, wrap_int.
    rewrite (Z.mod_small (48 + Seat.Number s + 2 ^ 63)) by lia.
    replace (48 + Seat.Number s + 2 ^ 63 - 2 ^ 63)%Z
      with (48 + Seat.Number s)%Z by lia.
    rewrite Z.mod_small by lia. lia. }
  rewrite Hw.
  rewrite bool_decide_false by lia.
  rewrite bool_decide_true by lia.
  reflexivity.
Qed.

Lemma GetSeatNumber_one_character_witness :
  Seat.GetSeatNumber Demo2.seatH12 = "H<".
Proof.
  rewrite (GetSeatNumber_one_character Demo2.seatH12).
  - reflexivity.
  - cbn. lia.
Defined.

(** ** Shows: the phases *)

(** X15. Read at one instant, a show that does not end before it starts
    is in at most one of the phases upcoming, active and completed, and
    in none of them at the very instant it starts or ends; it can be
    booked exactly when that instant is less than thirty minutes past
    the start, hence whenever it is upcoming. *)
Theorem show_phases (s : Show.t) (o : Oracle) :
  (Show.StartTime s <= Show.EndTime s)%Z ->
  let now := fst (time_Now o) in
  let upcoming := fst (Show.IsUpcoming s o) in
  let active := fst (Show.IsActive s o) in
  let completed := fst (Show.IsCompleted s o) in
  let bookable := fst (Show.CanBeBooked s o) in
  (upcoming && active = false) /\ (upcoming && completed = false)
  /\ (active && completed = false)
  /\ (now = Show.StartTime s \/ now = Show.EndTime s ->
      upcoming = false /\ active = false /\ completed = false)
  /\ (bookable = true <-> (now < Show.StartTime s + 30 * Minute)%Z)
  /\ (upcoming = true -> bookable = true).
Proof.
  intros Horder. cbn.
  unfold Show.IsUpcoming, Show.IsActive, Show.IsCompleted, Show.CanBeBooked.
  cbn. unfold After, Before, Minute.
  repeat case_bool_decide; cbn; repeat split; intros; try lia;
    try discriminate; try reflexivity.
Qed.

Lemma show_phases_witness :
  fst (Show.IsUpcoming Demo.show1
         (Demo.oracle_at (Show.StartTime Demo.show1))) = false
  /\ fst (Show.IsActive Demo.show1
            (Demo.oracle_at (Show.StartTime Demo.show1))) = false
  /\ fst (Show.IsCompleted Demo.show1
            (Demo.oracle_at (Show.StartTime Demo.show1))) = false.
Proof.
  apply (show_phases Demo.show1 (Demo.oracle_at (Show.StartTime Demo.show1))).
  - vm_compute. discriminate.
  - left. reflexivity.
Defined.
